(** * routing-controllers-openapi: the OpenAPI generator of [src/generateSpec.ts]

    A shallow embedding of the functions of [generateSpec.ts] and the
    properties its specification states about them.

    Conventions of the embedding.
    - JavaScript strings are [string]s.  The classes of the two regular
      expressions of the source hold ASCII characters only, so the
      embedding of the two is exact.  The lodash functions on words and
      letters ([_.startCase], [_.capitalize]) are modelled on ASCII text:
      a character outside ASCII separates words and has no other case.
    - The values the generator builds are strings, booleans, arrays and
      plain objects.  An object is an association list in the order its
      properties were set, read by its first binding; the order in which
      JavaScript enumerates integer-like property names and the special
      property name [__proto__] are not modelled.
    - An exception is a value of [result]: the only one the module can
      raise is the [TypeError] of a property read on [undefined].
    - The metadata store read by [Reflect.getMetadata] is a variable of the
      section that holds the functions reading it.
    - The lodash functions are modelled after the library (version 4), on
      the values above. *)

From Stdlib Require Import String Ascii List Bool Arith Lia ZArith.
From Stdlib Require Import DecimalString.
From Equations Require Import Equations.
Import ListNotations.
Open Scope string_scope.
Open Scope list_scope.

(** ** Strings *)

Definition code (c : ascii) : nat := nat_of_ascii c.

Definition between (lo hi n : nat) : bool := Nat.leb lo n && Nat.leb n hi.

Definition isUpper (c : ascii) : bool := between 65 90 (code c).
Definition isLower (c : ascii) : bool := between 97 122 (code c).
Definition isDigit (c : ascii) : bool := between 48 57 (code c).

(** The class [[A-Za-z0-9_]] of both regular expressions.  The flag [i]
    adds nothing to it: it already holds both cases, and without the flag
    [u] no character outside ASCII is folded onto an ASCII letter. *)
Definition isWordChar (c : ascii) : bool :=
  isUpper c || isLower c || isDigit c || (c =? "_")%char.

(** The longest prefix of characters of a class, what a greedy [[...]*]
    consumes, and the rest of the string. *)
Fixpoint takeWhile (p : ascii -> bool) (s : string) : string :=
  match s with
  | String c s' => if p c then String c (takeWhile p s') else ""
  | "" => ""
  end.

Fixpoint dropWhile (p : ascii -> bool) (s : string) : string :=
  match s with
  | String c s' => if p c then dropWhile p s' else s
  | "" => ""
  end.

Abbreviation takeWord := (takeWhile isWordChar).
Abbreviation dropWord := (dropWhile isWordChar).

Definition isEmptyString (s : string) : bool :=
  match s with "" => true | _ => false end.

Definition startsWith (c : ascii) (s : string) : bool :=
  match s with String d _ => (d =? c)%char | "" => false end.

Definition tail (s : string) : string :=
  match s with String _ s' => s' | "" => "" end.

Fixpoint dropLast (s : string) : string :=
  match s with
  | "" => ""
  | String c "" => ""
  | String c s' => String c (dropLast s')
  end.

(** [d.slice(1, -1)] *)
Definition slice_1_m1 (s : string) : string := dropLast (tail s).

Fixpoint endsWith (suffix s : string) : bool :=
  (s =? suffix)
  || match s with String _ s' => endsWith suffix s' | "" => false end.

(** [path.replace(/:([A-Za-z0-9_]+)/gi, '{$1}')]: from left to right, a
    colon followed by at least one character of the class is replaced,
    with the whole run after it, by the run in braces, and the scan goes
    on after the run; any other character is copied. *)
Equations? replaceColonParams (s : string) : string by wf (String.length s) lt :=
  replaceColonParams "" := "";
  replaceColonParams (String c rest) :=
    if (c =? ":")%char && negb (isEmptyString (takeWord rest))
    then "{" ++ takeWord rest ++ "}" ++ replaceColonParams (dropWord rest)
    else String c (replaceColonParams rest).
Proof.
  clear. induction rest as [|d rest IH]; simpl; [lia|].
  destruct (isWordChar d); simpl; lia.
Qed.

(** [path.match(/{[A-Za-z0-9_]+}/gi)]: every match from left to right, the
    braces included; [None] is the [null] of a string with no match. *)
Equations? matchAllBraces (s : string) : list string by wf (String.length s) lt :=
  matchAllBraces "" := [];
  matchAllBraces (String c rest) :=
    if (c =? "{")%char && negb (isEmptyString (takeWord rest))
       && startsWith "}" (dropWord rest)
    then ("{" ++ takeWord rest ++ "}")%string :: matchAllBraces (tail (dropWord rest))
    else matchAllBraces rest.
Proof.
  clear. induction rest as [|d rest IH]; simpl; [lia|].
  destruct (isWordChar d); simpl; lia.
Qed.

Definition matchBraces (s : string) : option (list string) :=
  match matchAllBraces s with [] => None | ms => Some ms end.

(** [_.map(collection, f)], over [null] as over the empty array. *)
Definition lodash_map {A B} (c : option (list A)) (f : A -> B) : list B :=
  match c with Some l => List.map f l | None => [] end.

(** ** The lodash string functions of [getSummary] and [getTags] *)

Fixpoint take (n : nat) (s : string) : string :=
  match n, s with
  | S n', String c s' => String c (take n' s')
  | _, _ => ""
  end.

Fixpoint drop (n : nat) (s : string) : string :=
  match n, s with
  | S n', String _ s' => drop n' s'
  | _, _ => s
  end.

Definition headIs (p : ascii -> bool) (s : string) : bool :=
  match s with String c _ => p c | "" => false end.

Definition lastChar (s : string) : option ascii :=
  match String.length s with
  | 0 => None
  | S n => String.get n s
  end.

Definition toUpperChar (c : ascii) : ascii :=
  if isLower c then ascii_of_nat (code c - 32) else c.

Definition toLowerChar (c : ascii) : ascii :=
  if isUpper c then ascii_of_nat (code c + 32) else c.

(** [string.toLowerCase()] *)
Fixpoint toLowerCase (s : string) : string :=
  match s with
  | String c s' => String (toLowerChar c) (toLowerCase s')
  | "" => ""
  end.

(** [_.upperFirst]: the first character in upper case, the rest as it is. *)
Definition upperFirst (s : string) : string :=
  match s with
  | String c s' => String (toUpperChar c) s'
  | "" => ""
  end.

(** [_.capitalize]: [upperFirst(toString(string).toLowerCase())]. *)
Definition capitalize (s : string) : string := upperFirst (toLowerCase s).

(** [string.replace(reApos, '')], the first step of a lodash compounder:
    the apostrophes are dropped. *)
Fixpoint removeApostrophes (s : string) : string :=
  match s with
  | String c s' =>
      if (c =? "'")%char then removeApostrophes s' else String c (removeApostrophes s')
  | "" => ""
  end.

(** [/[a-z][A-Z]|[A-Z]{2}[a-z]|[0-9][a-zA-Z]|[a-zA-Z][0-9]|[^a-zA-Z0-9 ]/.test(s)] *)
Fixpoint hasUnicodeWord (s : string) : bool :=
  match s with
  | "" => false
  | String c rest =>
      let letter x := isUpper x || isLower x in
      (isLower c && headIs isUpper rest)
      || (isUpper c && headIs isUpper rest && headIs isLower (tail rest))
      || (isDigit c && headIs letter rest)
      || (letter c && headIs isDigit rest)
      || negb (letter c || isDigit c || (c =? " ")%char)
      || hasUnicodeWord rest
  end.

Definition isAlnum (c : ascii) : bool := isUpper c || isLower c || isDigit c.

(** [string.match(/[^\x00-\x2f\x3a-\x40\x5b-\x60\x7b-\x7f]+/g) || []]: the
    longest runs of letters and digits. *)
Equations? asciiWords (s : string) : list string by wf (String.length s) lt :=
  asciiWords "" := [];
  asciiWords (String c rest) :=
    if isAlnum c
    then String c (takeWhile isAlnum rest) :: asciiWords (dropWhile isAlnum rest)
    else asciiWords rest.
Proof.
  clear. induction rest as [|d rest IH]; simpl; [lia|].
  destruct (isAlnum d); simpl; lia.
Qed.

(** The ordinal alternatives of lodash's word pattern,
    [\d*(?:1ST|2ND|3RD|(?![123])\dTH)(?=\b|[a-z_])] and its lower-case twin:
    [d] is the last digit of the run and [s] what follows the run. *)
Definition ordinalSuffix (upper : bool) (d : ascii) (s : string) : bool :=
  let suffix := take 2 s in
  let wanted :=
    if (d =? "1")%char then (if upper then "ST" else "st")
    else if (d =? "2")%char then (if upper then "ND" else "nd")
    else if (d =? "3")%char then (if upper then "RD" else "rd")
    else (if upper then "TH" else "th") in
  (suffix =? wanted)%string
  && negb (headIs (fun x => isDigit x || (if upper then isUpper x else isLower x))
                  (drop 2 s)).

(** The length of the word that lodash's pattern for words matches at the
    head of [s], [0] when none of its alternatives does.  On ASCII text
    without apostrophes the alternatives come to: a run of lower-case
    letters, with one upper-case letter before it or none; a run of
    upper-case letters, less its last letter when a lower-case letter
    follows; a run of digits, with an ordinal suffix or without. *)
Definition wordLength (s : string) : nat :=
  match s with
  | "" => 0
  | String c rest =>
      if isLower c then S (String.length (takeWhile isLower rest))
      else if isUpper c then
        if headIs isLower rest then S (String.length (takeWhile isLower rest))
        else
          let k := String.length (takeWhile isUpper rest) in
          if headIs isLower (dropWhile isUpper rest) then k else S k
      else if isDigit c then
        let k := S (String.length (takeWhile isDigit rest)) in
        let after := dropWhile isDigit rest in
        match lastChar (take k s) with
        | Some d =>
            if ordinalSuffix true d after || ordinalSuffix false d after
            then k + 2 else k
        | None => k
        end
      else 0
  end.

Equations? unicodeWords (s : string) : list string by wf (String.length s) lt :=
  unicodeWords "" := [];
  unicodeWords (String c rest) with wordLength (String c rest) => {
    | 0 := unicodeWords rest;
    | S n := String c (take n rest) :: unicodeWords (drop n rest) }.
Proof.
  clear. revert rest. induction n as [|n IH]; intros [|d rest]; simpl; try lia.
  specialize (IH rest). lia.
Qed.

(** [_.words(string)], without a pattern. *)
Definition words (s : string) : list string :=
  if hasUnicodeWord s then unicodeWords s else asciiWords s.

(** [_.startCase]: the words of the string, each with its first letter in
    upper case, joined by single spaces. *)
Definition startCase (s : string) : string :=
  fst (fold_left
         (fun (acc : string * nat) word =>
            let '(result, index) := acc in
            ((result ++ (if Nat.eqb index 0 then "" else " ") ++ upperFirst word)%string,
             S index))
         (words (removeApostrophes s)) ("", 0)).

(** [name.replace(/Controller$/, '')] *)
Definition stripControllerSuffix (s : string) : string :=
  if endsWith "Controller" s then take (String.length s - 10) s else s.


(** ** JavaScript values and the lodash functions on objects *)

Unset Elimination Schemes.
Inductive value : Type :=
| VUndefined
| VString (s : string)
| VBoolean (b : bool)
| VArray (items : list value)
| VObject (props : list (string * value)).
Set Elimination Schemes.

Definition props := list (string * value).

(** Induction over values, with the hypothesis for every item of an array
    and every property of an object. *)
Section ValueInduction.
Variable P : value -> Prop.
Hypothesis Hundefined : P VUndefined.
Hypothesis Hstring : forall s, P (VString s).
Hypothesis Hboolean : forall b, P (VBoolean b).
Hypothesis Harray : forall items, Forall P items -> P (VArray items).
Hypothesis Hobject : forall o : props, Forall (fun kv => P (snd kv)) o -> P (VObject o).

Fixpoint value_ind (v : value) : P v :=
  match v with
  | VUndefined => Hundefined
  | VString s => Hstring s
  | VBoolean b => Hboolean b
  | VArray items =>
      Harray items
        ((fix all (l : list value) : Forall P l :=
            match l with
            | [] => Forall_nil P
            | x :: l' => Forall_cons x (value_ind x) (all l')
            end) items)
  | VObject o =>
      Hobject o
        ((fix all (l : props) : Forall (fun kv => P (snd kv)) l :=
            match l with
            | [] => Forall_nil _
            | kv :: l' => Forall_cons kv (value_ind (snd kv)) (all l')
            end) o)
  end.
End ValueInduction.

(** [object[key]], [None] when the object has no such property. *)
Fixpoint getProp (o : props) (key : string) : option value :=
  match o with
  | [] => None
  | (k, v) :: o' => if (k =? key)%string then Some v else getProp o' key
  end.

(** [object[key] = v]: an existing property keeps its place, a new one
    comes last. *)
Fixpoint setProp (o : props) (key : string) (v : value) : props :=
  match o with
  | [] => [(key, v)]
  | (k, w) :: o' =>
      if (k =? key)%string then (k, v) :: o' else (k, w) :: setProp o' key v
  end.

Definition get (v : value) (key : string) : option value :=
  match v with VObject o => getProp o key | _ => None end.

Definition keys (o : props) : list string := List.map fst o.

(** [_.isEmpty]: [undefined], the empty string, array and object, and
    every boolean (which has no property of its own) are empty. *)
Definition isEmpty (v : value) : bool :=
  match v with
  | VUndefined => true
  | VString s => isEmptyString s
  | VBoolean _ => true
  | VArray l => match l with [] => true | _ => false end
  | VObject o => match o with [] => true | _ => false end
  end.

(** [_.omitBy(object, predicate)] *)
Definition omitBy (o : props) (predicate : value -> bool) : props :=
  List.filter (fun kv => negb (predicate (snd kv))) o.

(** [_.find(array, predicate)] *)
Definition lodash_find {A} (l : list A) (predicate : A -> bool) : option A :=
  List.find predicate l.

(** The value [baseMergeDeep] merges the source value into: the
    destination's own value when it has the shape of the source's, a fresh
    array or object otherwise. *)
Definition mergeTarget (objValue : option value) (srcValue : value) : value :=
  match srcValue with
  | VArray _ => match objValue with Some (VArray d) => VArray d | _ => VArray [] end
  | _ =>
      match objValue with
      | Some (VObject d) => VObject d
      | Some (VArray d) => VArray d
      | _ => VObject []
      end
  end.

(** The value [baseMerge] leaves under a key: the merged one for a source
    value that is an object, the source value itself otherwise, except an
    [undefined] one, which never replaces a value. *)
Definition assignMergeValue (objValue : option value) (srcValue merged : value) : value :=
  match srcValue with
  | VUndefined => match objValue with Some v => v | None => VUndefined end
  | VString _ | VBoolean _ => srcValue
  | VArray _ | VObject _ => merged
  end.

(** [baseMerge(object, source)], the recursion of [_.merge]: the
    properties of the source are merged into the destination one by one,
    arrays index by index.  (A plain object merged into an array would
    leave an array with named properties, which [value] cannot hold: the
    destination is then kept as it is.  The operations of two routes never
    meet the case, see [operations_mergeable].) *)
Fixpoint baseMerge (object source : value) {struct source} : value :=
  match source, object with
  | VObject s, VObject d =>
      VObject
        (fold_left
           (fun (d : props) (kv : string * value) =>
              let objValue := getProp d (fst kv) in
              setProp d (fst kv)
                (assignMergeValue objValue (snd kv)
                   (baseMerge (mergeTarget objValue (snd kv)) (snd kv))))
           s d)
  | VArray s, VArray d =>
      VArray
        ((fix mergeItems (s d : list value) {struct s} : list value :=
            match s with
            | [] => d
            | srcValue :: s' =>
                let objValue := List.hd_error d in
                assignMergeValue objValue srcValue
                  (baseMerge (mergeTarget objValue srcValue) srcValue)
                  :: mergeItems s' (List.tl d)
            end) s d)
  | _, _ => object
  end.

(** [_.merge(object, ...sources)]; without arguments, the empty object. *)
Definition merge (objects : list value) : value :=
  match objects with
  | [] => VObject []
  | object :: sources => fold_left baseMerge sources object
  end.

Definition mergeValue (objValue : option value) (srcValue : value) : value :=
  assignMergeValue objValue srcValue (baseMerge (mergeTarget objValue srcValue) srcValue).

Definition mergeProp (d : props) (kv : string * value) : props :=
  setProp d (fst kv) (mergeValue (getProp d (fst kv)) (snd kv)).

Fixpoint mergeItems (s d : list value) : list value :=
  match s with
  | [] => d
  | srcValue :: s' => mergeValue (List.hd_error d) srcValue :: mergeItems s' (List.tl d)
  end.

(** ** Exceptions *)

Inductive exn := TypeError.

Inductive result (A : Type) : Type :=
| Return (a : A)
| Throw (e : exn).
Arguments Return {A} a.
Arguments Throw {A} e.

Definition bind {A B} (m : result A) (k : A -> result B) : result B :=
  match m with Return a => k a | Throw e => Throw e end.

Notation "x <- m ;; k" := (bind m (fun x => k))
  (at level 61, m at next level, right associativity).

(** [array.map(f)] with an [f] that may throw: the first exception ends it. *)
Fixpoint mapM {A B} (f : A -> result B) (l : list A) : result (list B) :=
  match l with
  | [] => Return []
  | a :: l' => b <- f a ;; bs <- mapM f l' ;; Return (b :: bs)
  end.

(** A property read on a value that may be [undefined]. *)
Definition deref {A} (x : option A) : result A :=
  match x with Some a => Return a | None => Throw TypeError end.

(** ** Route metadata (the [IRoute] of [index.ts] and the metadata arguments
    of routing-controllers it is made of) *)

(** A constructor function, as far as the generator looks at one. *)
Module Class.
Inductive proto := NumberPrototype | ObjectPrototype.
Record t := { name : string; prototype : proto }.
End Class.

(** [_.isNumber], on the prototype of a constructor. *)
Definition isNumber (p : Class.proto) : bool :=
  match p with Class.NumberPrototype => true | Class.ObjectPrototype => false end.

(** The identity of the object a parameter was declared on. *)
Definition Target := nat.

Module Controller.
Record t := { type : string; target : Class.t; route : string }.
End Controller.

Module Action.
Record t := { type : string; target : Class.t; method : string; route : string }.
End Action.

Module Param.
Record t := {
  object : Target;
  method : string;
  index : nat;
  name : option string;
  type : string;
  required : option bool
}.
End Param.

Module ResponseHandler.
Inductive val := Undefined | Number (n : Z) | Str (s : string).
Record t := { type : string; value : val }.
End ResponseHandler.

Module Options.
Record ParamOptions := { required : option bool }.
Record Defaults := { paramOptions : option ParamOptions }.
Record t := { routePrefix : option string; defaults : option Defaults }.
End Options.

Record IRoute := {
  action : Action.t;
  controller : Controller.t;
  options : Options.t;
  params : list Param.t;
  responseHandlers : list ResponseHandler.t
}.

(** [value + ''], and [value] as a computed property name (a number is an
    integer, printed in full). *)
Definition toString (v : ResponseHandler.val) : string :=
  match v with
  | ResponseHandler.Undefined => "undefined"
  | ResponseHandler.Number n => NilEmpty.string_of_int (Z.to_int n)
  | ResponseHandler.Str s => s
  end.

(** [x || ''] *)
Definition orEmpty (x : option string) : string :=
  match x with Some s => s | None => "" end.

(** ** The generator *)

(** Return full OpenAPI-formatted path of given route. *)
Definition getFullPath (route : IRoute) : string :=
  let path :=
    (orEmpty (Options.routePrefix (options route))
     ++ Controller.route (controller route)
     ++ Action.route (action route))%string in
  replaceColonParams path.

(** [_.get(route.options, 'defaults.paramOptions.required')] *)
Definition globalRequired (route : IRoute) : option bool :=
  match Options.defaults (options route) with
  | Some d =>
      match Options.paramOptions d with
      | Some p => Options.required p
      | None => None
      end
  | None => None
  end.

(** Return OpenAPI Operation ID for given route. *)
Definition getOperationId (route : IRoute) : string :=
  (Class.name (Action.target (action route)) ++ "." ++ Action.method (action route))%string.

(** Return true if given metadata argument is required, checking for global
    setting if local setting is not defined.  (The argument is the
    [required] property of [meta], the only one the function reads.) *)
Definition isRequired (required : option bool) (route : IRoute) : bool :=
  match globalRequired route with
  | Some true =>
      match required with Some false => false | _ => true end
  | _ =>
      match required with Some true => true | _ => false end
  end.

(** Return a JSON Schema reference object pointing to given schema. *)
Definition makeRef (schemaName : string) : value :=
  VObject [("$ref", VString ("#/components/schemas/" ++ schemaName))].

Definition handlerHasType (type : string) (h : ResponseHandler.t) : bool :=
  (ResponseHandler.type h =? type)%string.

(** Return OpenAPI Responses object of given route. *)
Definition getResponses (route : IRoute) : value :=
  let isJSON := (Controller.type (controller route) =? "json")%string in
  let defaultContentType :=
    if isJSON then "application/json" else "text/html; charset=utf-8" in
  let contentMeta := lodash_find (responseHandlers route) (handlerHasType "content-type") in
  let contentType :=
    match contentMeta with
    | Some m => toString (ResponseHandler.value m)
    | None => defaultContentType
    end in
  let successMeta := lodash_find (responseHandlers route) (handlerHasType "success-code") in
  let successStatus :=
    match successMeta with
    | Some m => toString (ResponseHandler.value m)
    | None => "200"
    end in
  VObject
    [(successStatus,
      VObject [("content", VObject [(contentType, VObject [])]);
               ("description", VString "Successful response")])].

(** Return OpenAPI Operation summary string for given route. *)
Definition getSummary (route : IRoute) : string :=
  capitalize (startCase (Action.method (action route))).

(** Return OpenAPI tags for given route. *)
Definition getTags (route : IRoute) : list string :=
  [startCase (stripControllerSuffix (Class.name (Controller.target (controller route))))].

(** [param.schema.type = type] *)
Definition setSchemaType (param : props) (type : string) : props :=
  match getProp param "schema" with
  | Some (VObject schema) =>
      setProp param "schema" (VObject (setProp schema "type" (VString type)))
  | _ => param
  end.

Definition isPathParamNamed (name : string) (m : Param.t) : bool :=
  match Param.name m with
  | Some n => (n =? name)%string && (Param.type m =? "param")%string
  | None => false
  end.

Definition hasType (type : string) (m : Param.t) : bool :=
  (Param.type m =? type)%string.

Section Generator.

(** The metadata recorded under ['design:paramtypes']: the types of the
    parameters of a method of an object, [None] when none was recorded;
    an entry of the array may itself be [undefined]. *)
Variable designParamTypes : Target -> string -> option (list (option Class.t)).

(** Parse given target object's property's param types from metadata. *)
Definition getParamTypes (target : Target) (property : string)
  : option (list (option Class.t)) :=
  designParamTypes target property.

(** [getParamTypes(object, method)[index]], then a property of it: the
    index throws on [undefined] metadata; it gives [undefined] beyond the
    end of the array, as it does at an entry that is [undefined], and the
    property read then throws. *)
Definition paramType (object : Target) (method : string) (index : nat)
  : result Class.t :=
  types <- deref (getParamTypes object method) ;;
  let typeCls := List.nth index types None in
  deref typeCls.

(** Return path parameters of given route. *)
Definition getPathParams (route : IRoute) : result (list value) :=
  let path := getFullPath route in
  let paramNames := lodash_map (matchBraces path) slice_1_m1 in
  mapM
    (fun name =>
       let param :=
         [("in", VString "path");
          ("name", VString name);
          ("required", VBoolean true);
          ("schema", VObject [("type", VString "string")])] in
       match lodash_find (params route) (isPathParamNamed name) with
       | Some meta =>
           typeCls <- paramType (Param.object meta) (Param.method meta) (Param.index meta) ;;
           let type := if isNumber (Class.prototype typeCls) then "number" else "string" in
           let param := setProp param "required" (VBoolean (isRequired (Param.required meta) route)) in
           let param := setSchemaType param type in
           Return (VObject param)
       | None => Return (VObject param)
       end)
    paramNames.

(** Return query parameters of given route. *)
Definition getQueryParams (route : IRoute) : result (list value) :=
  queries <-
    mapM
      (fun m =>
         typeCls <- paramType (Param.object m) (Param.method m) (Param.index m) ;;
         let type := if isNumber (Class.prototype typeCls) then "number" else "string" in
         Return
           (VObject
              [("in", VString "query");
               ("name", VString (orEmpty (Param.name m)));
               ("required", VBoolean (isRequired (Param.required m) route));
               ("schema", VObject [("type", VString type)])]))
      (List.filter (hasType "query") (params route)) ;;
  match lodash_find (params route) (hasType "queries") with
  | Some queriesMeta =>
      type <- paramType (Param.object queriesMeta) (Param.method queriesMeta)
                        (Param.index queriesMeta) ;;
      Return
        (queries ++
         [VObject
            [("in", VString "query");
             ("name", VString (Class.name type));
             ("required", VBoolean (isRequired (Param.required queriesMeta) route));
             ("schema", makeRef (Class.name type))]])
  | None => Return queries
  end.

(** Return OpenAPI requestBody of given route, if it has one. *)
Definition getRequestBody (route : IRoute) : result value :=
  match lodash_find (params route) (hasType "body") with
  | Some meta =>
      type <- paramType (Param.object meta) (Param.method meta) (Param.index meta) ;;
      Return
        (VObject
           [("content",
             VObject [("application/json", VObject [("schema", makeRef (Class.name type))])]);
            ("description", VString (Class.name type));
            ("required", VBoolean (isRequired (Param.required meta) route))])
  | None => Return VUndefined
  end.

(** Return OpenAPI Operation object for given route. *)
Definition getOperation (route : IRoute) : result value :=
  let operationId := getOperationId route in
  pathParams <- getPathParams route ;;
  queryParams <- getQueryParams route ;;
  requestBody <- getRequestBody route ;;
  let operation :=
    [("operationId", VString operationId);
     ("parameters", VArray (pathParams ++ queryParams));
     ("requestBody", requestBody);
     ("responses", getResponses route);
     ("summary", VString (getSummary route));
     ("tags", VArray (List.map VString (getTags route)))] in
  Return (VObject (omitBy operation isEmpty)).

(** Return OpenAPI Paths Object for given routes *)
Definition getPaths (routes : list IRoute) : result value :=
  routePaths <-
    mapM
      (fun route =>
         operation <- getOperation route ;;
         Return
           (VObject
              [(getFullPath route,
                VObject [(Action.type (action route), operation)])]))
      routes ;;
  Return (merge routePaths).

(** Return OpenAPI specification for given routes. *)
Definition getSpec (routes : list IRoute) : result value :=
  paths <- getPaths routes ;;
  Return
    (VObject
       [("components", VObject [("schemas", VObject [])]);
        ("info", VObject [("title", VString ""); ("version", VString "1.0.0")]);
        ("openapi", VString "3.0.0");
        ("paths", paths)]).

End Generator.

(** ** Vocabulary of the specification *)

(** The route strings of a route put end to end: the [path] of
    [getFullPath] before its placeholders are rewritten. *)
Definition routePath (route : IRoute) : string :=
  (orEmpty (Options.routePrefix (options route))
   ++ Controller.route (controller route)
   ++ Action.route (action route))%string.

(** A path read as literal characters and [:name] tokens. *)
Inductive segment :=
| Lit (c : ascii)
| Token (name : string).

Definition renderColon (seg : segment) : string :=
  match seg with Lit c => String c "" | Token n => String ":" n end.

Definition renderBrace (seg : segment) : string :=
  match seg with Lit c => String c "" | Token n => ("{" ++ n ++ "}")%string end.

Fixpoint renderAll (f : segment -> string) (segs : list segment) : string :=
  match segs with
  | [] => ""
  | seg :: segs' => (f seg ++ renderAll f segs')%string
  end.

Fixpoint tokenNames (segs : list segment) : list string :=
  match segs with
  | [] => []
  | Lit _ :: segs' => tokenNames segs'
  | Token n :: segs' => n :: tokenNames segs'
  end.

Fixpoint allWord (s : string) : bool :=
  match s with
  | String c s' => isWordChar c && allWord s'
  | "" => true
  end.

Definition startsWord (segs : list segment) : bool :=
  match segs with Lit c :: _ => isWordChar c | _ => false end.

(** The reading of a path in which every token is as long as it can be and
    no colon that could start a token is left as a literal. *)
Fixpoint canonical (segs : list segment) : bool :=
  match segs with
  | [] => true
  | Lit c :: segs' =>
      negb ((c =? ":")%char && startsWord segs') && canonical segs'
  | Token n :: segs' =>
      negb (isEmptyString n) && allWord n && negb (startsWord segs') && canonical segs'
  end.

Equations? tokenize (s : string) : list segment by wf (String.length s) lt :=
  tokenize "" := [];
  tokenize (String c rest) :=
    if (c =? ":")%char && negb (isEmptyString (takeWord rest))
    then Token (takeWord rest) :: tokenize (dropWord rest)
    else Lit c :: tokenize rest.
Proof.
  clear. induction rest as [|d rest IH]; simpl; [lia|].
  destruct (isWordChar d); simpl; lia.
Qed.

Fixpoint hasChar (c : ascii) (s : string) : bool :=
  match s with
  | String d s' => (d =? c)%char || hasChar c s'
  | "" => false
  end.

(** The names of the placeholders of a path, as [getPathParams] reads
    them off it. *)
Definition placeholders (path : string) : list string :=
  lodash_map (matchBraces path) slice_1_m1.

(** [x] is the first element of [l] that satisfies [p]. *)
Definition firstMatch {A} (p : A -> bool) (l : list A) (x : A) : Prop :=
  exists before after,
    l = before ++ x :: after /\ p x = true /\ Forall (fun y => p y = false) before.

Definition noMatch {A} (p : A -> bool) (l : list A) : Prop :=
  Forall (fun y => p y = false) l.

(** A literal opening brace among the segments. *)
Fixpoint litBrace (segs : list segment) : bool :=
  match segs with
  | [] => false
  | Lit c :: segs' => (c =? "{")%char || litBrace segs'
  | Token _ :: segs' => litBrace segs'
  end.

(** The parameter object [getPathParams] makes for one placeholder. *)
Definition pathParam types (route : IRoute) (name : string) : result value :=
  let param :=
    [("in", VString "path");
     ("name", VString name);
     ("required", VBoolean true);
     ("schema", VObject [("type", VString "string")])] in
  match lodash_find (params route) (isPathParamNamed name) with
  | Some meta =>
      typeCls <- paramType types (Param.object meta) (Param.method meta) (Param.index meta) ;;
      let type := if isNumber (Class.prototype typeCls) then "number" else "string" in
      let param :=
        setProp param "required" (VBoolean (isRequired (Param.required meta) route)) in
      let param := setSchemaType param type in
      Return (VObject param)
  | None => Return (VObject param)
  end.

(** The parameter object [getQueryParams] makes for one query descriptor. *)
Definition queryParam types (route : IRoute) (m : Param.t) : result value :=
  typeCls <- paramType types (Param.object m) (Param.method m) (Param.index m) ;;
  let type := if isNumber (Class.prototype typeCls) then "number" else "string" in
  Return
    (VObject
       [("in", VString "query");
        ("name", VString (orEmpty (Param.name m)));
        ("required", VBoolean (isRequired (Param.required m) route));
        ("schema", VObject [("type", VString type)])]).

(** The fragment [getPaths] makes of one route. *)
Definition routeFragment types (route : IRoute) : result value :=
  operation <- getOperation types route ;;
  Return
    (VObject
       [(getFullPath route, VObject [(Action.type (action route), operation)])]).

(** The type recorded for a declared parameter, and whether there is one. *)
Definition typeOf types (m : Param.t) : result Class.t :=
  paramType types (Param.object m) (Param.method m) (Param.index m).

Definition typed types (m : Param.t) : bool :=
  match typeOf types m with Return _ => true | Throw _ => false end.

Definition optionToList {A} (x : option A) : list A :=
  match x with Some a => [a] | None => [] end.

(** The declared parameters whose type the generator reads: for every
    placeholder of the path the first path descriptor of its name, every
    query descriptor, the first queries descriptor and the first body
    descriptor. *)
Definition pathDescriptors (route : IRoute) : list Param.t :=
  List.flat_map
    (fun name => optionToList (List.find (isPathParamNamed name) (params route)))
    (placeholders (getFullPath route)).

Definition queryDescriptors (route : IRoute) : list Param.t :=
  List.filter (hasType "query") (params route)
  ++ optionToList (List.find (hasType "queries") (params route)).

Definition bodyDescriptors (route : IRoute) : list Param.t :=
  optionToList (List.find (hasType "body") (params route)).

Definition typedRoute types (route : IRoute) : bool :=
  List.forallb (typed types)
    (pathDescriptors route ++ queryDescriptors route ++ bodyDescriptors route).

(** The ["parameters"] of an operation, none when it has no such property. *)
Definition parametersOf (operation : value) : list value :=
  match get operation "parameters" with
  | Some (VArray l) => l
  | _ => []
  end.

(** A parameter object of a path placeholder with the given name, made
    for a route from the first path descriptor of that name, if any. *)
Definition pathEntry types (route : IRoute) (name : string) (entry : value) : Prop :=
  exists required type,
    entry
    = VObject
        [("in", VString "path");
         ("name", VString name);
         ("required", VBoolean required);
         ("schema", VObject [("type", VString type)])]
    /\ (noMatch (isPathParamNamed name) (params route) ->
        required = true /\ type = "string")
    /\ (forall m, firstMatch (isPathParamNamed name) (params route) m ->
        required = isRequired (Param.required m) route
        /\ exists cls,
             typeOf types m = Return cls
             /\ type = if isNumber (Class.prototype cls) then "number" else "string").

(** The parameter object of a query descriptor. *)
Definition queryEntry types (route : IRoute) (m : Param.t) (entry : value) : Prop :=
  exists cls,
    typeOf types m = Return cls
    /\ entry
       = VObject
           [("in", VString "query");
            ("name", VString (orEmpty (Param.name m)));
            ("required", VBoolean (isRequired (Param.required m) route));
            ("schema",
             VObject
               [("type",
                 VString (if isNumber (Class.prototype cls) then "number" else "string"))])].

(** The parameter object of a queries descriptor, named after its type. *)
Definition queriesEntry types (route : IRoute) (m : Param.t) (entry : value) : Prop :=
  exists cls,
    typeOf types m = Return cls
    /\ entry
       = VObject
           [("in", VString "query");
            ("name", VString (Class.name cls));
            ("required", VBoolean (isRequired (Param.required m) route));
            ("schema",
             VObject [("$ref", VString ("#/components/schemas/" ++ Class.name cls))])].

(** The schema of a parameter object carries a type or is a reference. *)
Definition hasSchema (entry : value) : Prop :=
  exists schema,
    get entry "schema" = Some (VObject schema)
    /\ schema <> []
    /\ ((exists type, getProp schema "type" = Some (VString type))
        \/ (exists ref, getProp schema "$ref" = Some (VString ref))).

(** No string twice. *)
Fixpoint distinct (l : list string) : bool :=
  match l with
  | [] => true
  | k :: l' => negb (List.existsb (String.eqb k) l') && distinct l'
  end.

(** An object of JavaScript has no two properties of one name: the values
    that are well formed are those whose objects, at any depth, do not. *)
Fixpoint wellFormed (v : value) : bool :=
  match v with
  | VArray items => List.forallb wellFormed items
  | VObject o => distinct (List.map fst o) && List.forallb (fun kv => wellFormed (snd kv)) o
  | _ => true
  end.

(** A value without arrays. *)
Fixpoint arrayFree (v : value) : bool :=
  match v with
  | VArray _ => false
  | VObject o => List.forallb (fun kv => arrayFree (snd kv)) o
  | _ => true
  end.

(** Whether merging a source value into the value a destination has under
    the same key stays within the values of the model: at no depth does a
    plain object of the source meet an array of the destination. *)
Fixpoint mergeableValue (objValue : option value) (srcValue : value) {struct srcValue}
  : bool :=
  match srcValue with
  | VObject s =>
      match objValue with
      | Some (VArray _) => false
      | Some (VObject d) =>
          List.forallb (fun kv => mergeableValue (getProp d (fst kv)) (snd kv)) s
      | _ => true
      end
  | VArray s =>
      match objValue with
      | Some (VArray d) =>
          (fix items (s d : list value) {struct s} : bool :=
             match s with
             | [] => true
             | x :: s' => mergeableValue (List.hd_error d) x && items s' (List.tl d)
             end) s d
      | _ => true
      end
  | _ => true
  end.

Definition mergeable (object source : value) : bool :=
  mergeableValue (Some object) source.

(** The parameter objects of the generator: four properties, the schema
    with one. *)
Definition isParamObject (entry : value) : Prop :=
  exists location name required key text,
    entry
    = VObject
        [("in", VString location);
         ("name", VString name);
         ("required", VBoolean required);
         ("schema", VObject [(key, VString text)])].

(** The shape of an operation: arrays under ["parameters"] and ["tags"]
    only, of values without arrays. *)
Definition operationShaped (o : props) : Prop :=
  forall key v,
    In (key, v) o ->
    if (key =? "parameters")%string || (key =? "tags")%string
    then exists items, v = VArray items /\ List.forallb arrayFree items = true
    else arrayFree v = true.

(** A full path read as characters and [{name}] placeholders. *)
Inductive piece :=
| Char (c : ascii)
| Placeholder (name : string).

Definition renderPiece (p : piece) : string :=
  match p with
  | Char c => String c ""
  | Placeholder name => ("{" ++ name ++ "}")%string
  end.

Fixpoint renderPieces (pieces : list piece) : string :=
  match pieces with
  | [] => ""
  | p :: pieces' => (renderPiece p ++ renderPieces pieces')%string
  end.

Fixpoint placeholderNames (pieces : list piece) : list string :=
  match pieces with
  | [] => []
  | Char _ :: pieces' => placeholderNames pieces'
  | Placeholder name :: pieces' => name :: placeholderNames pieces'
  end.

(** What follows an opening brace makes a placeholder with it: a name of
    at least one letter, digit or underscore, then a closing brace. *)
Definition closesPlaceholder (s : string) : Prop :=
  exists name rest,
    name <> "" /\ allWord name = true /\ s = (name ++ "}" ++ rest)%string.

(** The reading of a path by its placeholders, from left to right: the
    name of a placeholder is not empty and holds letters, digits and
    underscores only, and an opening brace is a plain character only where
    what follows it makes no placeholder with it. *)
Inductive placeholdersRead : list piece -> Prop :=
| read_end : placeholdersRead []
| read_char c pieces :
    (c = "{"%char -> ~ closesPlaceholder (renderPieces pieces)) ->
    placeholdersRead pieces ->
    placeholdersRead (Char c :: pieces)
| read_placeholder name pieces :
    name <> "" -> allWord name = true ->
    placeholdersRead pieces ->
    placeholdersRead (Placeholder name :: pieces).

(** ** Sample routes *)

Definition NumberClass : Class.t :=
  {| Class.name := "Number"; Class.prototype := Class.NumberPrototype |}.

Definition classNamed (name : string) : Class.t :=
  {| Class.name := name; Class.prototype := Class.ObjectPrototype |}.

(** A store with the parameter types of one method, [getUser] of the
    object [1]: a number, a [UserQuery] and a [User]. *)
Definition sampleTypes (target : Target) (property : string)
  : option (list (option Class.t)) :=
  if Nat.eqb target 1 && (property =? "getUser")%string
  then Some [Some NumberClass; Some (classNamed "UserQuery"); Some (classNamed "User")]
  else None.

Definition usersController : Controller.t :=
  {| Controller.type := "json";
     Controller.target := classNamed "UsersController";
     Controller.route := "/users" |}.

Definition actionOf (type method route : string) : Action.t :=
  {| Action.type := type;
     Action.target := classNamed "UsersController";
     Action.method := method;
     Action.route := route |}.

Definition apiOptions (required : option bool) : Options.t :=
  {| Options.routePrefix := Some "/api";
     Options.defaults :=
       Some {| Options.paramOptions := Some {| Options.required := required |} |} |}.

Definition paramOf (object index : nat) (name : option string) (type : string)
  : Param.t :=
  {| Param.object := object;
     Param.method := "getUser";
     Param.index := index;
     Param.name := name;
     Param.type := type;
     Param.required := None |}.

Definition routeOf (a : Action.t) (ps : list Param.t) (hs : list ResponseHandler.t)
  : IRoute :=
  {| action := a;
     controller := usersController;
     options := apiOptions None;
     params := ps;
     responseHandlers := hs |}.

(** [GET /api/users/:id], with a path parameter, a query object and a
    query field. *)
Definition getUserRoute : IRoute :=
  routeOf (actionOf "get" "getUser" "/:id")
    [paramOf 1 0 (Some "id") "param";
     paramOf 1 1 None "queries";
     paramOf 1 0 (Some "limit") "query"]
    [].

(** [POST /api/users], with a body and the status [201]. *)
Definition createUserRoute : IRoute :=
  routeOf (actionOf "post" "createUser" "")
    [paramOf 1 2 None "body"]
    [{| ResponseHandler.type := "success-code";
        ResponseHandler.value := ResponseHandler.Number 201 |}].

(** A route written with a placeholder in braces. *)
Definition braceRoute : IRoute :=
  routeOf (actionOf "get" "getItem" "/{id}") [] [].

(** A route with a query parameter of an object with no recorded types. *)
Definition untypedRoute : IRoute :=
  routeOf (actionOf "get" "search" "/search") [paramOf 2 0 (Some "q") "query"] [].

(** [getUserRoute] under the global default that makes parameters
    required. *)
Definition requiredUserRoute : IRoute :=
  {| action := action getUserRoute;
     controller := controller getUserRoute;
     options := apiOptions (Some true);
     params := params getUserRoute;
     responseHandlers := responseHandlers getUserRoute |}.

(** The full path of [getUserRoute], read by its placeholders. *)
Definition getUserPieces : list piece :=
  [Char "/"; Char "a"; Char "p"; Char "i";
   Char "/"; Char "u"; Char "s"; Char "e"; Char "r"; Char "s";
   Char "/"; Placeholder "id"].

(** A store whose recorded arrays hold an [undefined] entry. *)
Definition undefinedEntryTypes (target : Target) (property : string)
  : option (list (option Class.t)) :=
  Some [None].

(** A second route on the path and method of [getUserRoute]. *)
Definition findUserRoute : IRoute :=
  routeOf (actionOf "get" "findUser" "/:id") [] [].

(** [GET /api/users/:id] once more, answering [201]. *)
Definition createdUserRoute : IRoute :=
  routeOf (actionOf "get" "getUser" "/:id") []
    [{| ResponseHandler.type := "success-code";
        ResponseHandler.value := ResponseHandler.Number 201 |}].

(** ** Vocabulary of the paths object *)

(** The operation a paths object holds under a path and a method. *)
Definition operationAt (paths : value) (path method : string) : option value :=
  match get paths path with
  | Some (VObject methods) => getProp methods method
  | _ => None
  end.

Definition onPathAndMethod (path method : string) (route : IRoute) : bool :=
  (getFullPath route =? path)%string && (Action.type (action route) =? method)%string.

(** The last route of a list on a full path and a method. *)
Fixpoint lastRoute (path method : string) (routes : list IRoute) : option IRoute :=
  match routes with
  | [] => None
  | route :: rest =>
      match lastRoute path method rest with
      | Some later => Some later
      | None => if onPathAndMethod path method route then Some route else None
      end
  end.

(** The fragment of a route with a given operation. *)
Definition fragmentOf (route : IRoute) (operation : value) : string * value :=
  (getFullPath route, VObject [(Action.type (action route), operation)]).

(** An object whose properties all hold objects. *)
Definition holdsObjects (o : props) : Prop :=
  forall key v, getProp o key = Some v -> exists inner, v = VObject inner.

(** A paths object holds an operation under a path and a method exactly
    when some route of the list is on them, and the operation then bears
    the identifier of the last such route. *)
Definition lastRouteWins (paths : value) (routes : list IRoute) : Prop :=
  forall path method,
    match lastRoute path method routes with
    | None => operationAt paths path method = None
    | Some route =>
        exists o,
          operationAt paths path method = Some (VObject o)
          /\ getProp o "operationId" = Some (VString (getOperationId route))
    end.

(** * Properties *)

(** ** Strings and lists *)

Lemma dropWord_length s : String.length (dropWord s) <= String.length s.
Proof.
  induction s as [|c s IH]; simpl; [lia|].
  destruct (isWordChar c); simpl; lia.
Qed.

Lemma append_assoc (a b c : string) : ((a ++ b) ++ c = a ++ (b ++ c))%string.
Proof. induction a as [|x a IH]; simpl; [reflexivity | now rewrite IH]. Qed.

Lemma hasChar_append c (a b : string) :
  hasChar c (a ++ b) = hasChar c a || hasChar c b.
Proof.
  induction a as [|x a IH]; simpl; [reflexivity|].
  now rewrite IH, orb_assoc.
Qed.

Lemma takeWord_append (n r : string) :
  allWord n = true -> headIs isWordChar r = false ->
  takeWord (n ++ r) = n /\ dropWord (n ++ r) = r.
Proof.
  intros Hn Hr. induction n as [|c n IH]; simpl in *.
  - destruct r as [|d r]; simpl in *; [easy|]. now rewrite Hr.
  - apply andb_true_iff in Hn as [Hc Hn]. rewrite Hc.
    destruct (IH Hn) as [-> ->]. easy.
Qed.

Lemma takeWord_allWord s : allWord (takeWord s) = true.
Proof.
  induction s as [|c s IH]; simpl; [reflexivity|].
  destruct (isWordChar c) eqn:E; simpl; [now rewrite E|reflexivity].
Qed.

Lemma takeWord_dropWord s : (takeWord s ++ dropWord s)%string = s.
Proof.
  induction s as [|c s IH]; simpl; [reflexivity|].
  destruct (isWordChar c); simpl; [now rewrite IH|reflexivity].
Qed.

Lemma dropWord_head s : headIs isWordChar (dropWord s) = false.
Proof.
  induction s as [|c s IH]; simpl; [reflexivity|].
  destruct (isWordChar c) eqn:E; simpl; [exact IH|exact E].
Qed.

Lemma takeWord_empty_head s :
  isEmptyString (takeWord s) = negb (headIs isWordChar s).
Proof. destruct s as [|c s]; simpl; [reflexivity|]. now destruct (isWordChar c). Qed.

Lemma dropLast_snoc (n : string) c : dropLast (n ++ String c "") = n.
Proof.
  induction n as [|d n IH]; simpl; [reflexivity|].
  rewrite IH. destruct n; reflexivity.
Qed.

Lemma slice_braces n : slice_1_m1 ("{" ++ n ++ "}") = n.
Proof. unfold slice_1_m1. simpl. apply dropLast_snoc. Qed.

(** ** Reading a path as literals and tokens *)

Lemma head_renderColon segs :
  headIs isWordChar (renderAll renderColon segs) = startsWord segs.
Proof. destruct segs as [|[c|n] segs]; reflexivity. Qed.

Lemma startsWord_tokenize s : startsWord (tokenize s) = headIs isWordChar s.
Proof.
  destruct s as [|c rest]; [reflexivity|].
  simp tokenize.
  destruct (Ascii.eqb_spec c ":") as [->|_]; simpl; [|reflexivity].
  destruct (isEmptyString (takeWord rest)); reflexivity.
Qed.

Lemma tokenize_render s : renderAll renderColon (tokenize s) = s.
Proof.
  remember (String.length s) as k eqn:Hk. revert s Hk.
  induction k as [k IH] using lt_wf_ind. intros [|c rest] Hk; [reflexivity|].
  simp tokenize. simpl in Hk.
  destruct ((c =? ":")%char && negb (isEmptyString (takeWord rest))) eqn:E; simpl.
  - apply andb_true_iff in E as [Ec _]. apply Ascii.eqb_eq in Ec as ->.
    pose proof (dropWord_length rest).
    rewrite (IH (String.length (dropWord rest))) by (lia || reflexivity).
    now rewrite takeWord_dropWord.
  - now rewrite (IH (String.length rest)) by (lia || reflexivity).
Qed.

Lemma tokenize_canonical s : canonical (tokenize s) = true.
Proof.
  remember (String.length s) as k eqn:Hk. revert s Hk.
  induction k as [k IH] using lt_wf_ind. intros [|c rest] Hk; [reflexivity|].
  simp tokenize. simpl in Hk.
  destruct ((c =? ":")%char && negb (isEmptyString (takeWord rest))) eqn:E; simpl.
  - apply andb_true_iff in E as [_ Ew]. rewrite Ew, takeWord_allWord.
    rewrite startsWord_tokenize, dropWord_head. simpl.
    pose proof (dropWord_length rest).
    apply (IH (String.length (dropWord rest))); lia || reflexivity.
  - rewrite startsWord_tokenize, <- (negb_involutive (headIs _ _)), <- takeWord_empty_head.
    rewrite E. simpl. apply (IH (String.length rest)); lia || reflexivity.
Qed.

Lemma replace_render segs :
  canonical segs = true ->
  replaceColonParams (renderAll renderColon segs) = renderAll renderBrace segs.
Proof.
  induction segs as [|[c|n] segs IH]; intros H; [reflexivity| |];
    simpl in H; repeat (apply andb_true_iff in H as [H ?]).
  - simpl. simp replaceColonParams.
    rewrite takeWord_empty_head, negb_involutive, head_renderColon.
    apply negb_true_iff in H. rewrite H. now rewrite IH.
  - simpl. simp replaceColonParams. rewrite Ascii.eqb_refl. simpl.
    destruct (takeWord_append n (renderAll renderColon segs)) as [-> ->]; trivial.
    { rewrite head_renderColon. now apply negb_true_iff. }
    rewrite H. simpl. rewrite IH by assumption. now rewrite append_assoc.
Qed.

Lemma tokenize_unique segs :
  canonical segs = true -> tokenize (renderAll renderColon segs) = segs.
Proof.
  induction segs as [|[c|n] segs IH]; intros H; [reflexivity| |];
    simpl in H; repeat (apply andb_true_iff in H as [H ?]).
  - simpl. simp tokenize.
    rewrite takeWord_empty_head, negb_involutive, head_renderColon.
    apply negb_true_iff in H. rewrite H. now rewrite IH.
  - simpl. simp tokenize. rewrite Ascii.eqb_refl. simpl.
    destruct (takeWord_append n (renderAll renderColon segs)) as [-> ->]; trivial.
    { rewrite head_renderColon. now apply negb_true_iff. }
    rewrite H. simpl. now rewrite IH.
Qed.

Lemma litBrace_render segs :
  hasChar "{" (renderAll renderColon segs) = false -> litBrace segs = false.
Proof.
  induction segs as [|[c|n] segs IH]; simpl; [reflexivity| |].
  - intros H. apply orb_false_iff in H as [-> H]. now apply IH.
  - rewrite hasChar_append. intros H. apply orb_false_iff in H as [_ H]. now apply IH.
Qed.

Lemma matchAllBraces_render segs :
  canonical segs = true -> litBrace segs = false ->
  matchAllBraces (renderAll renderBrace segs)
  = List.map (fun n => ("{" ++ n ++ "}")%string) (tokenNames segs).
Proof.
  induction segs as [|[c|n] segs IH]; intros H Hb; [reflexivity| |];
    simpl in H; repeat (apply andb_true_iff in H as [H ?]); simpl in Hb.
  - apply orb_false_iff in Hb as [Hc Hb].
    simpl. simp matchAllBraces. rewrite Hc. simpl. now apply IH.
  - simpl. rewrite append_assoc. simpl. simp matchAllBraces. simpl.
    destruct (takeWord_append n (String "}" (renderAll renderBrace segs))) as [-> ->];
      trivial.
    rewrite H. simpl. now rewrite IH.
Qed.

Lemma map_slice_braces names :
  List.map slice_1_m1 (List.map (fun n => ("{" ++ n ++ "}")%string) names) = names.
Proof.
  induction names as [|n names IH]; cbn [List.map]; [reflexivity|].
  now rewrite IH, slice_braces.
Qed.

Lemma lodash_map_matchBraces s :
  lodash_map (matchBraces s) slice_1_m1 = List.map slice_1_m1 (matchAllBraces s).
Proof. unfold matchBraces. now destruct (matchAllBraces s). Qed.

(** ** [getFullPath] *)

Lemma getFullPath_routePath route :
  getFullPath route = replaceColonParams (routePath route).
Proof. reflexivity. Qed.

(** C1, as stated, fails: a route string with a placeholder already in
    braces gives a path with a placeholder that no [:name] token of the
    route strings stands for. *)
Lemma getFullPath_literal_brace :
  routePath braceRoute = "/api/users/{id}"
  /\ tokenNames (tokenize (routePath braceRoute)) = []
  /\ placeholders (getFullPath braceRoute) = ["id"]
  /\ placeholders (getFullPath braceRoute)
     <> tokenNames (tokenize (routePath braceRoute)).
Proof. repeat split; try reflexivity. vm_compute. discriminate. Qed.

(** C1, amended: [getFullPath] returns the route prefix (empty when absent),
    the controller's route and the action's route put end to end, with
    every [:name] token over letters, digits and underscores rewritten to
    [{name}]; when the route strings hold no opening brace of their own, the
    placeholders of the result are the names of the tokens, one for one and
    in the same order. *)
Theorem getFullPath_rewrites_tokens (route : IRoute) :
  let segs := tokenize (routePath route) in
  canonical segs = true
  /\ renderAll renderColon segs = routePath route
  /\ getFullPath route = renderAll renderBrace segs
  /\ (hasChar "{" (routePath route) = false ->
      placeholders (getFullPath route) = tokenNames segs).
Proof.
  intros segs.
  assert (Hc : canonical segs = true) by apply tokenize_canonical.
  assert (Hr : renderAll renderColon segs = routePath route) by apply tokenize_render.
  assert (Hf : getFullPath route = renderAll renderBrace segs).
  { rewrite getFullPath_routePath, <- Hr. now apply replace_render. }
  repeat split; trivial. intros Hbrace.
  unfold placeholders. rewrite lodash_map_matchBraces, Hf.
  rewrite matchAllBraces_render, map_slice_braces; trivial.
  apply litBrace_render. now rewrite Hr.
Qed.

Lemma getFullPath_rewrites_tokens_witness :
  hasChar "{" (routePath getUserRoute) = false
  /\ getFullPath getUserRoute = "/api/users/{id}"
  /\ placeholders (getFullPath getUserRoute) = ["id"].
Proof.
  assert (H : hasChar "{" (routePath getUserRoute) = false) by reflexivity.
  destruct (getFullPath_rewrites_tokens getUserRoute) as (_ & _ & Hf & Hp).
  split; [exact H|]. split; [rewrite Hf | rewrite (Hp H)]; reflexivity.
Defined.

(** ** First matches *)

Lemma find_firstMatch {A} (p : A -> bool) l x :
  List.find p l = Some x <-> firstMatch p l x.
Proof.
  split.
  - induction l as [|y l IH]; simpl; [discriminate|].
    destruct (p y) eqn:E.
    + intros [= ->]. exists [], l. repeat split; trivial.
    + intros H. destruct (IH H) as (before & after & -> & Hx & Hb).
      exists (y :: before), after. repeat split; trivial. now constructor.
  - intros (before & after & -> & Hx & Hb).
    induction Hb as [|y before Hy _ IH]; simpl; [now rewrite Hx | now rewrite Hy].
Qed.

Lemma find_noMatch {A} (p : A -> bool) l :
  List.find p l = None <-> noMatch p l.
Proof.
  unfold noMatch. induction l as [|y l IH]; simpl.
  - split; [constructor | reflexivity].
  - destruct (p y) eqn:E.
    + split; [discriminate|]. intros H. inversion H; congruence.
    + rewrite IH. split; [now constructor | now inversion 1].
Qed.

(** ** [isRequired] *)

(** C3: a parameter is required if and only if, when the options of the
    route set [defaults.paramOptions.required] to [true], its own flag is
    not [false], and otherwise its own flag is [true]; so a parameter
    without a flag is required exactly when the global flag is set, and a
    flag [false] makes it optional whatever the global flag is. *)
Theorem isRequired_rule (required : option bool) (route : IRoute) :
  (isRequired required route = true <->
     (globalRequired route = Some true /\ required <> Some false)
     \/ (globalRequired route <> Some true /\ required = Some true))
  /\ (isRequired None route = true <-> globalRequired route = Some true)
  /\ isRequired (Some false) route = false.
Proof.
  unfold isRequired.
  destruct (globalRequired route) as [[|]|]; repeat split;
    try destruct required as [[|]|]; intros; try tauto; try congruence;
    try (left; split; congruence); try (right; split; congruence);
    try (intuition congruence).
Qed.

(** ** [getResponses] *)

(** C5: the responses object has one entry; its key is the value of the
    first success-code handler as a string, ["200"] without one; its
    content has one key, the value of the first content-type handler, or
    without one [application/json] for a controller tagged ["json"] and
    [text/html; charset=utf-8] for any other; the body under that key is
    empty and the description is the fixed one. *)
Theorem getResponses_single_entry (route : IRoute) :
  exists status contentType,
    getResponses route
    = VObject
        [(status,
          VObject [("content", VObject [(contentType, VObject [])]);
                   ("description", VString "Successful response")])]
    /\ (forall h, firstMatch (handlerHasType "success-code") (responseHandlers route) h ->
        status = toString (ResponseHandler.value h))
    /\ (noMatch (handlerHasType "success-code") (responseHandlers route) ->
        status = "200")
    /\ (forall h, firstMatch (handlerHasType "content-type") (responseHandlers route) h ->
        contentType = toString (ResponseHandler.value h))
    /\ (noMatch (handlerHasType "content-type") (responseHandlers route) ->
        contentType
        = if (Controller.type (controller route) =? "json")%string
          then "application/json" else "text/html; charset=utf-8").
Proof.
  unfold getResponses, lodash_find.
  destruct (List.find (handlerHasType "success-code") (responseHandlers route))
    as [s|] eqn:Es;
  destruct (List.find (handlerHasType "content-type") (responseHandlers route))
    as [c|] eqn:Ec;
  eexists; eexists; (split; [reflexivity|]); repeat split;
    try (intros h Hh; apply find_firstMatch in Hh; congruence);
    try (intros Hn; apply find_noMatch in Hn; congruence);
    reflexivity.
Qed.

Example getResponses_json_default :
  getResponses getUserRoute
  = VObject
      [("200",
        VObject [("content", VObject [("application/json", VObject [])]);
                 ("description", VString "Successful response")])].
Proof. reflexivity. Qed.

Example getResponses_success_code :
  getResponses createUserRoute
  = VObject
      [("201",
        VObject [("content", VObject [("application/json", VObject [])]);
                 ("description", VString "Successful response")])].
Proof. reflexivity. Qed.

(** ** [getSummary] *)

Lemma toLowerChar_not_upper c : isUpper (toLowerChar c) = false.
Proof. destruct c as [[] [] [] [] [] [] [] []]; reflexivity. Qed.

Lemma toLowerChar_toUpperChar c :
  toLowerChar (toUpperChar (toLowerChar c)) = toLowerChar c.
Proof. destruct c as [[] [] [] [] [] [] [] []]; reflexivity. Qed.

Lemma toLowerChar_idem c : toLowerChar (toLowerChar c) = toLowerChar c.
Proof. destruct c as [[] [] [] [] [] [] [] []]; reflexivity. Qed.

Lemma toLowerCase_idem s : toLowerCase (toLowerCase s) = toLowerCase s.
Proof.
  induction s as [|c s IH]; simpl; [reflexivity|].
  now rewrite IH, toLowerChar_idem.
Qed.

Lemma toLowerCase_get s i c :
  String.get i (toLowerCase s) = Some c -> isUpper c = false.
Proof.
  revert i. induction s as [|d s IH]; intros [|i]; simpl; try discriminate.
  - intros [= <-]. apply toLowerChar_not_upper.
  - apply IH.
Qed.

Lemma toLowerCase_length s : String.length (toLowerCase s) = String.length s.
Proof. induction s as [|c s IH]; simpl; [reflexivity | now rewrite IH]. Qed.

Example startCase_camel : startCase "getUser" = "Get User".
Proof. reflexivity. Qed.

Example startCase_acronym : startCase "getHTMLPage2ndTry" = "Get HTML Page 2nd Try".
Proof. reflexivity. Qed.

Example startCase_separators : startCase "list_all users" = "List All Users".
Proof. reflexivity. Qed.

Example startCase_ordinal : startCase "v21stB" = "V 21st B".
Proof. reflexivity. Qed.

Example getTags_users : getTags getUserRoute = ["Users"].
Proof. reflexivity. Qed.

(** C8, as stated, fails: the letters after the first do not keep the case
    the title-case conversion gave them; the [U] of ["Get User"] is lowered. *)
Lemma getSummary_lowers_the_rest :
  startCase (Action.method (action getUserRoute)) = "Get User"
  /\ getSummary getUserRoute = "Get user"
  /\ getSummary getUserRoute
     <> upperFirst (startCase (Action.method (action getUserRoute))).
Proof. repeat split; try reflexivity. vm_compute. discriminate. Qed.

(** C8, amended: [getSummary] converts the method name of the action to
    space-separated title case, then puts the phrase in lower case and its
    first letter in upper case: the summary is the phrase letter for
    letter, case apart, and no letter after the first is in upper case
    (["getUser"] yields ["Get user"]). *)
Theorem getSummary_capitalizes (route : IRoute) :
  let phrase := startCase (Action.method (action route)) in
  getSummary route = upperFirst (toLowerCase phrase)
  /\ toLowerCase (getSummary route) = toLowerCase phrase
  /\ String.length (getSummary route) = String.length phrase
  /\ (forall i c, String.get (S i) (getSummary route) = Some c -> isUpper c = false).
Proof.
  intros phrase. unfold getSummary, capitalize. fold phrase.
  split; [reflexivity|].
  destruct phrase as [|c s]; simpl; [repeat split; discriminate|].
  repeat split.
  - now rewrite toLowerChar_toUpperChar, toLowerCase_idem.
  - now rewrite toLowerCase_length.
  - intros i d. apply toLowerCase_get.
Qed.

Example getSummary_getUser : getSummary getUserRoute = "Get user".
Proof. reflexivity. Qed.



(** ** Exceptions *)

Lemma mapM_Forall2 {A B} (f : A -> result B) l ys :
  mapM f l = Return ys -> Forall2 (fun x y => f x = Return y) l ys.
Proof.
  revert ys. induction l as [|x l IH]; simpl; intros ys.
  - intros [= <-]. constructor.
  - destruct (f x) as [y|e] eqn:Ex; simpl; [|discriminate].
    destruct (mapM f l) as [ys'|e]; simpl; [|discriminate].
    intros [= <-]. constructor; auto.
Qed.

Lemma mapM_returns {A B} (f : A -> result B) l :
  (exists ys, mapM f l = Return ys) <-> Forall (fun x => exists y, f x = Return y) l.
Proof.
  induction l as [|x l IH]; simpl.
  - split; [constructor | now exists []].
  - split.
    + intros [ys H]. destruct (f x) as [y|e] eqn:Ex; simpl in H; [|discriminate].
      destruct (mapM f l) as [ys'|e]; simpl in H; [|discriminate].
      constructor; [now exists y | apply IH; now exists ys'].
    + intros H. inversion H as [|? ? [y Hy] Hl]; subst.
      apply IH in Hl as [ys ->]. rewrite Hy. simpl. now eexists.
Qed.

Lemma Return_inj {A} (a b : A) : Return a = Return b -> a = b.
Proof. now intros [= ->]. Qed.

Lemma result_cases {A} (r : result A) :
  (exists a, r = Return a) \/ r = Throw TypeError.
Proof. destruct r as [a|[]]; [left; now exists a | now right]. Qed.

Lemma typed_typeOf types m :
  typed types m = true <-> exists cls, typeOf types m = Return cls.
Proof.
  unfold typed. destruct (typeOf types m) as [cls|e].
  - split; [now exists cls | reflexivity].
  - split; [discriminate | now intros [? ?]].
Qed.

(** ** [getPathParams] *)

Lemma getPathParams_mapM types route :
  getPathParams types route
  = mapM (pathParam types route) (placeholders (getFullPath route)).
Proof. reflexivity. Qed.

Lemma pathParam_returns types route name :
  (exists entry, pathParam types route name = Return entry)
  <-> List.forallb (typed types)
        (optionToList (List.find (isPathParamNamed name) (params route))) = true.
Proof.
  unfold pathParam, lodash_find.
  destruct (List.find (isPathParamNamed name) (params route)) as [m|]; simpl.
  - rewrite andb_true_r, typed_typeOf. unfold typeOf.
    destruct (paramType types _ _ _) as [cls|e]; simpl.
    + split; eauto.
    + split; intros [? ?]; discriminate.
  - split; eauto.
Qed.

Lemma pathParam_entry types route name entry :
  pathParam types route name = Return entry -> pathEntry types route name entry.
Proof.
  unfold pathParam, lodash_find, pathEntry.
  destruct (List.find (isPathParamNamed name) (params route)) as [m|] eqn:Ef.
  - fold (typeOf types m). destruct (typeOf types m) as [cls|e] eqn:Et; simpl; [|discriminate].
    intros [= <-]. eexists; eexists. split; [reflexivity|]. split.
    + intros Hn. apply find_noMatch in Hn. congruence.
    + intros m' Hm'. apply find_firstMatch in Hm'.
      assert (m' = m) as -> by congruence. split; [reflexivity|]. now exists cls.
  - intros [= <-]. eexists; eexists. split; [reflexivity|]. split.
    + easy.
    + intros m' Hm'. apply find_firstMatch in Hm'. congruence.
Qed.

Lemma getPathParams_returns types route :
  (exists entries, getPathParams types route = Return entries)
  <-> List.forallb (typed types) (pathDescriptors route) = true.
Proof.
  rewrite getPathParams_mapM, mapM_returns. unfold pathDescriptors.
  induction (placeholders (getFullPath route)) as [|name names IH]; simpl.
  - split; [reflexivity | constructor].
  - rewrite forallb_app, andb_true_iff, <- IH, <- pathParam_returns.
    split; [now inversion 1 | intros []; now constructor].
Qed.

Lemma getPathParams_Forall2 types route entries :
  getPathParams types route = Return entries ->
  Forall2 (pathEntry types route) (placeholders (getFullPath route)) entries.
Proof.
  rewrite getPathParams_mapM. intros H. apply mapM_Forall2 in H.
  induction H; constructor; auto using pathParam_entry.
Qed.

(** *** The placeholders of a path *)

Lemma takeWord_nonempty s :
  isEmptyString (takeWord s) = false -> takeWord s <> "".
Proof. now destruct (takeWord s). Qed.

Lemma closesPlaceholder_spec s :
  closesPlaceholder s
  <-> isEmptyString (takeWord s) = false /\ startsWith "}" (dropWord s) = true.
Proof.
  split.
  - intros (name & rest & Hne & Hw & ->).
    destruct (takeWord_append name (String "}" rest) Hw eq_refl) as [Ht Hd].
    simpl in *. rewrite Ht, Hd. split; [now destruct name | reflexivity].
  - intros [Hne Hclose]. exists (takeWord s), (tail (dropWord s)).
    split; [now apply takeWord_nonempty|]. split; [apply takeWord_allWord|].
    rewrite <- (takeWord_dropWord s) at 1. f_equal.
    destruct (dropWord s) as [|c r]; [discriminate|]. simpl in *.
    now apply Ascii.eqb_eq in Hclose as ->.
Qed.

Lemma matchAllBraces_read pieces :
  placeholdersRead pieces ->
  matchAllBraces (renderPieces pieces)
  = List.map (fun name => ("{" ++ name ++ "}")%string) (placeholderNames pieces).
Proof.
  induction 1 as [|c pieces Hc _ IH|name pieces Hne Hw _ IH]; [reflexivity| |].
  - simpl. simp matchAllBraces.
    destruct (Ascii.eqb_spec c "{") as [->|_]; [|exact IH]. simpl.
    destruct (isEmptyString (takeWord (renderPieces pieces))) eqn:Et; [exact IH|].
    destruct (startsWith "}" (dropWord (renderPieces pieces))) eqn:Ed; [|exact IH].
    exfalso. apply (Hc eq_refl), closesPlaceholder_spec. auto.
  - simpl. rewrite append_assoc. simpl. simp matchAllBraces. simpl.
    destruct (takeWord_append name (String "}" (renderPieces pieces)) Hw eq_refl)
      as [-> ->].
    destruct name as [|c name]; [contradiction|]. simpl. now rewrite IH.
Qed.

Lemma placeholders_read pieces :
  placeholdersRead pieces ->
  placeholders (renderPieces pieces) = placeholderNames pieces.
Proof.
  intros H. unfold placeholders.
  now rewrite lodash_map_matchBraces, (matchAllBraces_read _ H), map_slice_braces.
Qed.

(** Every string has such a reading. *)
Lemma placeholdersRead_exists s :
  exists pieces, renderPieces pieces = s /\ placeholdersRead pieces.
Proof.
  remember (String.length s) as k eqn:Hk. revert s Hk.
  induction k as [k IH] using lt_wf_ind. intros [|c rest] Hk.
  - exists []. split; [reflexivity | constructor].
  - simpl in Hk.
    destruct ((c =? "{")%char && negb (isEmptyString (takeWord rest))
              && startsWith "}" (dropWord rest)) eqn:E.
    + apply andb_true_iff in E as [E Hclose]. apply andb_true_iff in E as [Hc Hne].
      apply Ascii.eqb_eq in Hc as ->. apply negb_true_iff in Hne.
      pose proof (dropWord_length rest) as Hlen.
      destruct (dropWord rest) as [|d after] eqn:Ed; [discriminate|].
      simpl in Hclose. apply Ascii.eqb_eq in Hclose as ->.
      destruct (IH (String.length after)) with (s := after)
        as (pieces & Hr & Hp); [simpl in Hlen; lia | reflexivity |].
      exists (Placeholder (takeWord rest) :: pieces). split.
      * simpl. rewrite append_assoc. simpl. rewrite Hr, <- Ed.
        now rewrite takeWord_dropWord.
      * constructor; trivial; [now apply takeWord_nonempty | apply takeWord_allWord].
    + destruct (IH (String.length rest)) with (s := rest)
        as (pieces & Hr & Hp); [lia | reflexivity |].
      exists (Char c :: pieces). split; [simpl; now rewrite Hr|].
      constructor; trivial. intros -> Hclose. rewrite Hr in Hclose.
      apply closesPlaceholder_spec in Hclose as [Hne Hd].
      simpl in E. now rewrite Hne, Hd in E.
Qed.

(** C2: [getPathParams] returns one parameter object for each placeholder
    of the full path, in the order of the path and with a repeated
    placeholder repeated: the full path has a reading by its placeholders,
    and the objects answer, one for one, the placeholders of any such
    reading.  An object is in the path, carries the name of its
    placeholder, and is required and of type string unless a declared path
    descriptor has that name: the first one then makes it required by the
    rule of [isRequired] and of type number when its recorded type is
    number-like, string otherwise. *)
Theorem getPathParams_entries types (route : IRoute) :
  List.forallb (typed types) (pathDescriptors route) = true ->
  (exists pieces,
     renderPieces pieces = getFullPath route /\ placeholdersRead pieces)
  /\ forall pieces,
       renderPieces pieces = getFullPath route ->
       placeholdersRead pieces ->
       exists entries,
         getPathParams types route = Return entries
         /\ Forall2 (pathEntry types route) (placeholderNames pieces) entries.
Proof.
  intros H. split; [apply placeholdersRead_exists|].
  intros pieces Hr Hp. apply getPathParams_returns in H as [entries H].
  exists entries. split; [exact H|].
  apply getPathParams_Forall2 in H.
  now rewrite <- Hr, (placeholders_read _ Hp) in H.
Qed.

Lemma getUserPieces_read : placeholdersRead getUserPieces.
Proof.
  unfold getUserPieces.
  repeat (first [apply read_char; [discriminate|] | apply read_placeholder
                | apply read_end]); (discriminate || reflexivity).
Defined.

Lemma getPathParams_entries_witness :
  List.forallb (typed sampleTypes) (pathDescriptors getUserRoute) = true
  /\ renderPieces getUserPieces = getFullPath getUserRoute
  /\ placeholderNames getUserPieces = ["id"]
  /\ getPathParams sampleTypes getUserRoute
     = Return
         [VObject
            [("in", VString "path");
             ("name", VString "id");
             ("required", VBoolean false);
             ("schema", VObject [("type", VString "number")])]]
  /\ Forall2 (pathEntry sampleTypes getUserRoute) ["id"]
       [VObject
          [("in", VString "path");
           ("name", VString "id");
           ("required", VBoolean false);
           ("schema", VObject [("type", VString "number")])]].
Proof.
  split; [reflexivity|]. split; [reflexivity|]. split; [reflexivity|].
  destruct (getPathParams_entries sampleTypes getUserRoute eq_refl) as [_ H].
  destruct (H getUserPieces eq_refl getUserPieces_read) as (entries & Hr & Hf).
  assert (entries
          = [VObject
               [("in", VString "path");
                ("name", VString "id");
                ("required", VBoolean false);
                ("schema", VObject [("type", VString "number")])]]) as ->.
  { vm_compute in Hr. now injection Hr as <-. }
  split; [exact Hr | exact Hf].
Defined.

(** A placeholder that occurs twice gives two parameter objects, and an
    opening brace that opens no placeholder gives none. *)
Example getPathParams_repeated_placeholder :
  getPathParams sampleTypes (routeOf (actionOf "get" "copy" "/:id/{/copies/{id}") [] [])
  = Return
      [VObject
         [("in", VString "path");
          ("name", VString "id");
          ("required", VBoolean true);
          ("schema", VObject [("type", VString "string")])];
       VObject
         [("in", VString "path");
          ("name", VString "id");
          ("required", VBoolean true);
          ("schema", VObject [("type", VString "string")])]].
Proof. reflexivity. Qed.

(** An [undefined] entry of the recorded types raises as a missing record
    does. *)
Example getSpec_undefined_entry :
  getSpec undefinedEntryTypes [untypedRoute] = Throw TypeError.
Proof. reflexivity. Qed.

Example getPathParams_getUser :
  getPathParams sampleTypes getUserRoute
  = Return
      [VObject
         [("in", VString "path");
          ("name", VString "id");
          ("required", VBoolean false);
          ("schema", VObject [("type", VString "number")])]].
Proof. reflexivity. Qed.

Example getPathParams_global_required :
  getPathParams sampleTypes requiredUserRoute
  = Return
      [VObject
         [("in", VString "path");
          ("name", VString "id");
          ("required", VBoolean true);
          ("schema", VObject [("type", VString "number")])]].
Proof. reflexivity. Qed.

Example placeholders_repeated :
  placeholders (replaceColonParams "/:id/copies/:id") = ["id"; "id"].
Proof. reflexivity. Qed.

(** ** [getQueryParams] *)

Lemma queryParam_entry types route m entry :
  queryParam types route m = Return entry <-> queryEntry types route m entry.
Proof.
  unfold queryParam, queryEntry. fold (typeOf types m).
  destruct (typeOf types m) as [cls|e]; simpl.
  - split; [intros [= <-]; now exists cls | intros (? & [= <-] & ->); reflexivity].
  - split; [discriminate | intros (? & ? & _); discriminate].
Qed.

Lemma queryParam_returns types route m :
  (exists entry, queryParam types route m = Return entry) <-> typed types m = true.
Proof.
  rewrite typed_typeOf. unfold queryParam. fold (typeOf types m).
  destruct (typeOf types m) as [cls|e]; simpl; split; eauto; intros [? ?]; discriminate.
Qed.

Lemma getQueryParams_entries types route :
  List.forallb (typed types) (queryDescriptors route) = true ->
  exists singles extra,
    getQueryParams types route = Return (singles ++ extra)
    /\ Forall2 (queryEntry types route)
         (List.filter (hasType "query") (params route)) singles
    /\ Forall2 (queriesEntry types route)
         (optionToList (List.find (hasType "queries") (params route))) extra.
Proof.
  unfold queryDescriptors, getQueryParams, lodash_find.
  rewrite forallb_app, andb_true_iff. intros [Hq Hs].
  fold (queryParam types route).
  assert (exists singles,
            mapM (queryParam types route)
              (List.filter (hasType "query") (params route)) = Return singles)
    as [singles Hm].
  { apply mapM_returns. rewrite forallb_forall in Hq. apply Forall_forall.
    intros m Hm. apply queryParam_returns. auto. }
  rewrite Hm. simpl. exists singles.
  assert (Forall2 (queryEntry types route)
            (List.filter (hasType "query") (params route)) singles) as Hsingles.
  { apply mapM_Forall2 in Hm. clear Hq.
    induction Hm; constructor; trivial. now apply queryParam_entry. }
  destruct (List.find (hasType "queries") (params route)) as [q|]; simpl in *.
  - rewrite andb_true_r in Hs. apply typed_typeOf in Hs as [cls Hcls].
    unfold typeOf in Hcls. rewrite Hcls. simpl.
    eexists. split; [reflexivity|]. split; [exact Hsingles|].
    constructor; [|constructor]. exists cls. split; [exact Hcls | reflexivity].
  - exists []. rewrite app_nil_r. repeat split; trivial.
Qed.

Lemma getQueryParams_returns types route :
  (exists entries, getQueryParams types route = Return entries)
  <-> List.forallb (typed types) (queryDescriptors route) = true.
Proof.
  split.
  - intros [entries H]. unfold queryDescriptors, getQueryParams, lodash_find in *.
    fold (queryParam types route) in H.
    destruct (mapM (queryParam types route) _) as [singles|e] eqn:Hm; [|discriminate].
    simpl in H. rewrite forallb_app, andb_true_iff. split.
    + apply forallb_forall. intros m Hin.
      assert (exists ys, mapM (queryParam types route)
                (List.filter (hasType "query") (params route)) = Return ys) as Hex
        by eauto.
      apply mapM_returns in Hex. rewrite Forall_forall in Hex.
      apply (queryParam_returns types route). auto.
    + destruct (List.find (hasType "queries") (params route)) as [q|]; simpl; trivial.
      rewrite andb_true_r. apply typed_typeOf. unfold typeOf.
      destruct (paramType types _ _ _) as [cls|e]; [eauto | discriminate].
  - intros H. destruct (getQueryParams_entries types route H) as (s & x & -> & _). eauto.
Qed.

(** C10: when a route declares a queries descriptor, the parameter object
    made from the first of them, named after its type and with a reference
    as schema, comes last in the result of [getQueryParams], after the
    objects of the query descriptors in the order of their declaration,
    wherever it stands among the declared parameters; no other queries
    descriptor gives an object. *)
Theorem getQueryParams_queries_last types (route : IRoute) (q : Param.t) :
  firstMatch (hasType "queries") (params route) q ->
  List.forallb (typed types) (queryDescriptors route) = true ->
  exists singles last,
    getQueryParams types route = Return (singles ++ [last])
    /\ Forall2 (queryEntry types route)
         (List.filter (hasType "query") (params route)) singles
    /\ queriesEntry types route q last.
Proof.
  intros Hq Ht. apply find_firstMatch in Hq.
  destruct (getQueryParams_entries types route Ht) as (singles & extra & Hr & Hs & He).
  rewrite Hq in He. simpl in He.
  inversion He as [|? last ? rest Hlast Hrest]; subst. inversion Hrest; subst.
  exists singles, last. auto.
Qed.

Lemma firstMatch_queries_getUser :
  firstMatch (hasType "queries") (params getUserRoute) (paramOf 1 1 None "queries").
Proof.
  exists [paramOf 1 0 (Some "id") "param"], [paramOf 1 0 (Some "limit") "query"].
  repeat split. repeat constructor.
Defined.

Lemma getQueryParams_queries_last_witness :
  exists singles last,
    getQueryParams sampleTypes getUserRoute = Return (singles ++ [last])
    /\ Forall2 (queryEntry sampleTypes getUserRoute)
         (List.filter (hasType "query") (params getUserRoute)) singles
    /\ queriesEntry sampleTypes getUserRoute (paramOf 1 1 None "queries") last.
Proof.
  apply (getQueryParams_queries_last sampleTypes getUserRoute
           (paramOf 1 1 None "queries") firstMatch_queries_getUser).
  reflexivity.
Defined.

Example getQueryParams_getUser :
  getQueryParams sampleTypes getUserRoute
  = Return
      [VObject
         [("in", VString "query");
          ("name", VString "limit");
          ("required", VBoolean false);
          ("schema", VObject [("type", VString "number")])];
       VObject
         [("in", VString "query");
          ("name", VString "UserQuery");
          ("required", VBoolean false);
          ("schema", VObject [("$ref", VString "#/components/schemas/UserQuery")])]].
Proof. reflexivity. Qed.

(** ** [getRequestBody] and [getOperation] *)

Lemma getRequestBody_returns types route :
  (exists body, getRequestBody types route = Return body)
  <-> List.forallb (typed types) (bodyDescriptors route) = true.
Proof.
  unfold getRequestBody, bodyDescriptors, lodash_find.
  destruct (List.find (hasType "body") (params route)) as [m|]; simpl.
  - rewrite andb_true_r, typed_typeOf. unfold typeOf.
    destruct (paramType types _ _ _) as [cls|e]; simpl; split; eauto;
      intros [? ?]; discriminate.
  - split; eauto.
Qed.

Lemma getOperation_returns types route :
  (exists operation, getOperation types route = Return operation)
  <-> typedRoute types route = true.
Proof.
  unfold typedRoute. rewrite !forallb_app, !andb_true_iff.
  rewrite <- getPathParams_returns, <- getQueryParams_returns, <- getRequestBody_returns.
  unfold getOperation.
  destruct (getPathParams types route) as [pathParams|e]; simpl.
  2: { split; [intros [? ?]; discriminate | intros [[? ?] _]; discriminate]. }
  destruct (getQueryParams types route) as [queryParams|e]; simpl.
  2: { split; [intros [? ?]; discriminate | intros (_ & [? ?] & _); discriminate]. }
  destruct (getRequestBody types route) as [body|e]; simpl.
  2: { split; [intros [? ?]; discriminate | intros (_ & _ & [? ?]); discriminate]. }
  split; intros _; repeat split; eauto.
Qed.

Lemma parametersOf_omitBy operationId entries body responses summary tags :
  parametersOf
    (VObject
       (omitBy
          [("operationId", operationId);
           ("parameters", VArray entries);
           ("requestBody", body);
           ("responses", responses);
           ("summary", summary);
           ("tags", tags)]
          isEmpty))
  = entries.
Proof.
  unfold parametersOf, omitBy. simpl.
  destruct (isEmpty operationId), entries, (isEmpty body), (isEmpty responses),
    (isEmpty summary), (isEmpty tags); reflexivity.
Qed.

Lemma pathEntry_hasSchema types route name entry :
  pathEntry types route name entry -> hasSchema entry.
Proof.
  intros (required & type & -> & _). eexists. split; [reflexivity|].
  split; [discriminate|]. left. now exists type.
Qed.

Lemma queryEntry_hasSchema types route m entry :
  queryEntry types route m entry -> hasSchema entry.
Proof.
  intros (cls & _ & ->). eexists. split; [reflexivity|].
  split; [discriminate|]. left. eexists. reflexivity.
Qed.

Lemma queriesEntry_hasSchema types route m entry :
  queriesEntry types route m entry -> hasSchema entry.
Proof.
  intros (cls & _ & ->). eexists. split; [reflexivity|].
  split; [discriminate|]. right. eexists. reflexivity.
Qed.

Lemma Forall2_Forall_r {A B} (R : A -> B -> Prop) (P : B -> Prop) l l' :
  (forall x y, R x y -> P y) -> Forall2 R l l' -> Forall P l'.
Proof. intros H. induction 1; constructor; eauto. Qed.

(** C7: the parameters of the operation of a route are its path parameters,
    in the order of the placeholders of the path, followed by its query
    parameters, those of the query descriptors in the order of their
    declaration; the schema of each is an object that is not empty, with a
    type or with a reference. *)
Theorem getOperation_parameters types (route : IRoute) :
  typedRoute types route = true ->
  exists operation pathParams singles extra,
    getOperation types route = Return operation
    /\ getPathParams types route = Return pathParams
    /\ getQueryParams types route = Return (singles ++ extra)
    /\ parametersOf operation = pathParams ++ (singles ++ extra)
    /\ Forall2 (pathEntry types route) (placeholders (getFullPath route)) pathParams
    /\ Forall2 (queryEntry types route)
         (List.filter (hasType "query") (params route)) singles
    /\ Forall2 (queriesEntry types route)
         (optionToList (List.find (hasType "queries") (params route))) extra
    /\ Forall hasSchema (parametersOf operation).
Proof.
  unfold typedRoute. rewrite !forallb_app, !andb_true_iff. intros (Hp & Hq & Hb).
  apply getPathParams_returns in Hp as [pathParams Hpp].
  pose proof (getPathParams_Forall2 _ _ _ Hpp) as Hpe.
  destruct (getQueryParams_entries types route Hq) as (singles & extra & Hqp & Hs & Hx).
  apply getRequestBody_returns in Hb as [body Hbody].
  unfold getOperation. rewrite Hpp, Hqp, Hbody. cbn [bind].
  eexists; exists pathParams, singles, extra.
  split; [reflexivity|]. rewrite parametersOf_omitBy.
  repeat (split; trivial).
  rewrite !Forall_app. repeat split.
  - eapply Forall2_Forall_r; [|exact Hpe]. apply pathEntry_hasSchema.
  - eapply Forall2_Forall_r; [|exact Hs]. apply queryEntry_hasSchema.
  - eapply Forall2_Forall_r; [|exact Hx]. apply queriesEntry_hasSchema.
Qed.

Lemma getOperation_parameters_witness :
  typedRoute sampleTypes getUserRoute = true
  /\ exists operation,
       getOperation sampleTypes getUserRoute = Return operation
       /\ List.length (parametersOf operation) = 3
       /\ Forall hasSchema (parametersOf operation).
Proof.
  split; [reflexivity|].
  destruct (getOperation_parameters sampleTypes getUserRoute eq_refl)
    as (operation & pathParams & singles & extra & Ho & _ & _ & _ & _ & _ & _ & Hs).
  exists operation. split; [exact Ho|]. split; [|exact Hs].
  vm_compute in Ho. injection Ho as <-. reflexivity.
Defined.

Example getOperation_getUser :
  getOperation sampleTypes getUserRoute
  = Return
      (VObject
         [("operationId", VString "UsersController.getUser");
          ("parameters",
           VArray
             [VObject
                [("in", VString "path");
                 ("name", VString "id");
                 ("required", VBoolean false);
                 ("schema", VObject [("type", VString "number")])];
              VObject
                [("in", VString "query");
                 ("name", VString "limit");
                 ("required", VBoolean false);
                 ("schema", VObject [("type", VString "number")])];
              VObject
                [("in", VString "query");
                 ("name", VString "UserQuery");
                 ("required", VBoolean false);
                 ("schema",
                  VObject [("$ref", VString "#/components/schemas/UserQuery")])]]);
          ("responses",
           VObject
             [("200",
               VObject [("content", VObject [("application/json", VObject [])]);
                        ("description", VString "Successful response")])]);
          ("summary", VString "Get user");
          ("tags", VArray [VString "Users"])]).
Proof. reflexivity. Qed.

(** An operation without parameters has no ["parameters"] property. *)
Example getOperation_no_parameters :
  getOperation sampleTypes createUserRoute
  = Return
      (VObject
         [("operationId", VString "UsersController.createUser");
          ("requestBody",
           VObject
             [("content",
               VObject
                 [("application/json",
                   VObject
                     [("schema",
                       VObject [("$ref", VString "#/components/schemas/User")])])]);
              ("description", VString "User");
              ("required", VBoolean false)]);
          ("responses",
           VObject
             [("201",
               VObject [("content", VObject [("application/json", VObject [])]);
                        ("description", VString "Successful response")])]);
          ("summary", VString "Create user");
          ("tags", VArray [VString "Users"])]).
Proof. reflexivity. Qed.

(** ** Exceptions of the generator *)

Lemma getPaths_mapM types routes :
  getPaths types routes
  = (routePaths <- mapM (routeFragment types) routes ;; Return (merge routePaths)).
Proof. reflexivity. Qed.

Lemma routeFragment_returns types route :
  (exists fragment, routeFragment types route = Return fragment)
  <-> typedRoute types route = true.
Proof.
  rewrite <- getOperation_returns. unfold routeFragment.
  destruct (getOperation types route) as [operation|e]; simpl.
  - split; eauto.
  - split; intros [? ?]; discriminate.
Qed.

Lemma getPaths_returns types routes :
  (exists paths, getPaths types routes = Return paths)
  <-> List.forallb (typedRoute types) routes = true.
Proof.
  rewrite getPaths_mapM, forallb_forall, <- Forall_forall.
  assert (Forall (fun route => typedRoute types route = true) routes
          <-> exists fragments, mapM (routeFragment types) routes = Return fragments)
    as ->.
  { rewrite mapM_returns. split; apply Forall_impl; intros route;
      apply routeFragment_returns. }
  destruct (mapM (routeFragment types) routes) as [fragments|e]; simpl.
  - split; eauto.
  - split; intros [? ?]; discriminate.
Qed.

Lemma getSpec_returns types routes :
  (exists doc, getSpec types routes = Return doc)
  <-> List.forallb (typedRoute types) routes = true.
Proof.
  rewrite <- getPaths_returns. unfold getSpec.
  destruct (getPaths types routes) as [paths|e]; simpl.
  - split; eauto.
  - split; intros [? ?]; discriminate.
Qed.

(** The generator raises a [TypeError] as soon as one declared parameter
    whose type it reads has none recorded. *)
Lemma getSpec_throws types routes :
  List.forallb (typedRoute types) routes = false ->
  getSpec types routes = Throw TypeError.
Proof.
  intros H. destruct (result_cases (getSpec types routes)) as [Hr|Hr]; [|exact Hr].
  apply getSpec_returns in Hr. congruence.
Qed.

(** C6, as stated, fails: the type of a declared query parameter is read
    off the recorded metadata, and a property read on the [undefined] of a
    missing record raises a [TypeError], which nothing catches. *)
Lemma getSpec_throws_on_untyped_parameter :
  getQueryParams sampleTypes untypedRoute = Throw TypeError
  /\ getOperation sampleTypes untypedRoute = Throw TypeError
  /\ getSpec sampleTypes [untypedRoute] = Throw TypeError.
Proof. repeat split. Qed.

(** C6, amended: when every declared parameter whose type the generator
    reads (the first path descriptor named by a placeholder of the path,
    every query descriptor, the first queries descriptor and the first
    body descriptor of each route) has a recorded type, [getSpec] and every
    operation it calls return a value and raise nothing; no other missing
    input makes them fail. *)
Theorem getSpec_returns_when_typed types (routes : list IRoute) :
  List.forallb (typedRoute types) routes = true ->
  (exists doc, getSpec types routes = Return doc)
  /\ (exists paths, getPaths types routes = Return paths)
  /\ Forall
       (fun route =>
          (exists operation, getOperation types route = Return operation)
          /\ (exists entries, getPathParams types route = Return entries)
          /\ (exists entries, getQueryParams types route = Return entries)
          /\ (exists body, getRequestBody types route = Return body))
       routes.
Proof.
  intros H. split; [now apply getSpec_returns|]. split; [now apply getPaths_returns|].
  rewrite forallb_forall in H. apply Forall_forall. intros route Hin.
  specialize (H route Hin). split; [now apply getOperation_returns|].
  unfold typedRoute in H. rewrite !forallb_app, !andb_true_iff in H.
  destruct H as (Hp & Hq & Hb).
  split; [now apply getPathParams_returns|].
  split; [now apply getQueryParams_returns | now apply getRequestBody_returns].
Qed.

Lemma getSpec_returns_when_typed_witness :
  List.forallb (typedRoute sampleTypes) [getUserRoute; createUserRoute] = true
  /\ exists doc, getSpec sampleTypes [getUserRoute; createUserRoute] = Return doc.
Proof.
  split; [reflexivity|].
  apply (getSpec_returns_when_typed sampleTypes [getUserRoute; createUserRoute]).
  reflexivity.
Defined.

(** ** Objects and [_.merge] *)

Lemma getProp_setProp_same o key v : getProp (setProp o key v) key = Some v.
Proof.
  induction o as [|[k w] o IH]; simpl.
  - now rewrite String.eqb_refl.
  - destruct (String.eqb_spec k key) as [->|Hk]; simpl.
    + now rewrite String.eqb_refl.
    + destruct (String.eqb_spec k key); [contradiction | exact IH].
Qed.

Lemma getProp_setProp_other o key key' v :
  key <> key' -> getProp (setProp o key v) key' = getProp o key'.
Proof.
  intros Hne. induction o as [|[k w] o IH]; simpl.
  - destruct (String.eqb_spec key key'); [contradiction | reflexivity].
  - destruct (String.eqb_spec k key) as [->|Hk]; simpl.
    + destruct (String.eqb_spec key key'); [contradiction | reflexivity].
    + now rewrite IH.
Qed.

Lemma getProp_absent o key : getProp o key = None <-> ~ In key (keys o).
Proof.
  induction o as [|[k w] o IH]; simpl; [tauto|].
  destruct (String.eqb_spec k key) as [->|Hk].
  - split; [discriminate | tauto].
  - rewrite IH. tauto.
Qed.

Lemma setProp_fresh o key v :
  getProp o key = None -> setProp o key v = o ++ [(key, v)].
Proof.
  induction o as [|[k w] o IH]; simpl; [reflexivity|].
  destruct (String.eqb_spec k key); [discriminate|].
  intros H. now rewrite IH.
Qed.

Lemma existsb_eqb_In key l : List.existsb (String.eqb key) l = true <-> In key l.
Proof.
  rewrite existsb_exists. split.
  - intros (x & Hin & Hx). apply String.eqb_eq in Hx. now subst.
  - intros H. exists key. split; [exact H | apply String.eqb_refl].
Qed.

Lemma distinct_NoDup l : distinct l = true <-> NoDup l.
Proof.
  induction l as [|k l IH]; simpl.
  - split; [constructor | reflexivity].
  - rewrite andb_true_iff, negb_true_iff, IH, <- not_true_iff_false, existsb_eqb_In.
    split; [intros []; now constructor | now inversion 1].
Qed.

Lemma baseMerge_objects d s :
  baseMerge (VObject d) (VObject s) = VObject (fold_left mergeProp s d).
Proof. reflexivity. Qed.

Lemma baseMerge_arrays d s :
  baseMerge (VArray d) (VArray s) = VArray (mergeItems s d).
Proof. reflexivity. Qed.

Lemma mergeValue_objects d s :
  mergeValue (Some (VObject d)) (VObject s) = baseMerge (VObject d) (VObject s).
Proof. reflexivity. Qed.

Lemma fold_mergeProp_fresh s :
  Forall (fun kv => mergeValue None (snd kv) = snd kv) s ->
  forall acc, NoDup (keys acc ++ keys s) -> fold_left mergeProp s acc = acc ++ s.
Proof.
  induction 1 as [|[k v] s Hv _ IH]; intros acc Hnd; simpl.
  - now rewrite app_nil_r.
  - simpl in *. unfold mergeProp at 2. simpl.
    assert (getProp acc k = None) as Hk.
    { apply getProp_absent. intros Hin. apply NoDup_remove_2 in Hnd.
      apply Hnd, in_or_app. now left. }
    rewrite Hk, Hv, setProp_fresh by exact Hk.
    rewrite IH; [now rewrite <- app_assoc|].
    unfold keys in *. rewrite map_app, <- app_assoc. exact Hnd.
Qed.

(** Merged into nothing, a well-formed value is copied. *)
Lemma mergeValue_copy v : wellFormed v = true -> mergeValue None v = v.
Proof.
  induction v as [| | |items IH|o IH] using value_ind; intros Hwf; try reflexivity.
  - unfold mergeValue. cbn [mergeTarget assignMergeValue]. rewrite baseMerge_arrays.
    f_equal. simpl in Hwf. rewrite forallb_forall in Hwf.
    induction IH as [|x items Hx _ IHitems]; simpl; [reflexivity|].
    rewrite Hx by (apply Hwf; now left). f_equal.
    apply IHitems. intros y Hy. apply Hwf. now right.
  - unfold mergeValue. cbn [mergeTarget assignMergeValue]. rewrite baseMerge_objects.
    f_equal. simpl in Hwf. apply andb_true_iff in Hwf as [Hd Hwf].
    apply (fold_mergeProp_fresh o); [|now apply distinct_NoDup].
    rewrite forallb_forall in Hwf. rewrite Forall_forall in *.
    intros kv Hin. apply IH; auto.
Qed.

(** The law of [_.merge] on the properties of two objects: a property
    only the destination has is kept, and any property of the source is
    merged into the destination's value under its name. *)
Lemma fold_mergeProp_lookup s :
  NoDup (keys s) ->
  forall d key,
    getProp (fold_left mergeProp s d) key
    = match getProp s key with
      | None => getProp d key
      | Some srcValue => Some (mergeValue (getProp d key) srcValue)
      end.
Proof.
  induction s as [|[k v] s IH]; intros Hnd d key; simpl; [reflexivity|].
  inversion Hnd as [|? ? Hk Hnd']; subst. rewrite (IH Hnd').
  unfold mergeProp. simpl.
  destruct (String.eqb_spec k key) as [->|Hne].
  - apply getProp_absent in Hk. now rewrite Hk, getProp_setProp_same.
  - now rewrite getProp_setProp_other.
Qed.

Lemma merge_distinct key key' v w :
  key <> key' ->
  baseMerge (VObject [(key, v)]) (VObject [(key', w)])
  = VObject [(key, v); (key', mergeValue None w)].
Proof.
  intros H. rewrite baseMerge_objects. unfold mergeProp. simpl.
  destruct (String.eqb_spec key key'); [contradiction | reflexivity].
Qed.

Lemma merge_same key v w :
  baseMerge (VObject [(key, v)]) (VObject [(key, w)])
  = VObject [(key, mergeValue (Some v) w)].
Proof.
  rewrite baseMerge_objects. unfold mergeProp. simpl. now rewrite String.eqb_refl.
Qed.

Lemma mergeValue_fresh_object key w :
  mergeValue None (VObject [(key, w)]) = VObject [(key, mergeValue None w)].
Proof. reflexivity. Qed.

(** ** The operations are well formed *)

Lemma NoDup_keys_filter (f : string * value -> bool) (o : props) :
  NoDup (keys o) -> NoDup (keys (List.filter f o)).
Proof.
  induction o as [|kv o IH]; simpl; [constructor|].
  inversion 1 as [|? ? Hk Hnd]; subst.
  destruct (f kv); simpl; [|now apply IH].
  constructor; [|now apply IH].
  intros Hin. apply Hk. unfold keys in *. apply in_map_iff in Hin as (x & <- & Hx).
  apply filter_In in Hx as [Hx _]. now apply in_map.
Qed.

Lemma wellFormed_omitBy o predicate :
  wellFormed (VObject o) = true -> wellFormed (VObject (omitBy o predicate)) = true.
Proof.
  simpl. rewrite !andb_true_iff, !distinct_NoDup. intros [Hd Hv]. split.
  - now apply (NoDup_keys_filter _ o).
  - rewrite forallb_forall in *. intros kv Hin. apply filter_In in Hin as [Hin _]. auto.
Qed.

Lemma VObject_inj o o' : VObject o = VObject o' -> o = o'.
Proof. now intros [= ->]. Qed.

Lemma getProp_In o key v : getProp o key = Some v -> In (key, v) o.
Proof.
  induction o as [|[k w] o IH]; simpl; [discriminate|].
  destruct (String.eqb_spec k key) as [->|_]; [intros [= ->]; now left | auto].
Qed.

Lemma mapM_Forall {A B} (f : A -> result B) (P : B -> Prop) l ys :
  (forall x y, f x = Return y -> P y) -> mapM f l = Return ys -> Forall P ys.
Proof.
  intros Hf H. apply mapM_Forall2 in H. induction H; constructor; eauto.
Qed.

Lemma pathParam_object types route name entry :
  pathParam types route name = Return entry -> isParamObject entry.
Proof.
  intros H. apply pathParam_entry in H as (required & type & -> & _).
  now exists "path", name, required, "type", type.
Qed.

Lemma queryParam_object types route m entry :
  queryParam types route m = Return entry -> isParamObject entry.
Proof.
  intros H. apply queryParam_entry in H as (cls & _ & ->).
  unfold isParamObject. eauto 10.
Qed.

Lemma getPathParams_objects types route entries :
  getPathParams types route = Return entries -> Forall isParamObject entries.
Proof.
  rewrite getPathParams_mapM. apply mapM_Forall. apply pathParam_object.
Qed.

Lemma getQueryParams_objects types route entries :
  getQueryParams types route = Return entries -> Forall isParamObject entries.
Proof.
  unfold getQueryParams, lodash_find. fold (queryParam types route).
  destruct (mapM (queryParam types route) _) as [singles|e] eqn:Hm; simpl; [|discriminate].
  apply (mapM_Forall _ isParamObject) in Hm; [|apply queryParam_object].
  destruct (List.find (hasType "queries") (params route)) as [q|].
  - destruct (paramType types _ _ _) as [cls|e]; simpl; [|discriminate].
    intros [= <-]. apply Forall_app. split; [exact Hm|].
    constructor; [|constructor]. unfold isParamObject, makeRef. eauto 10.
  - now intros [= <-].
Qed.

Lemma paramObjects_plain entries :
  Forall isParamObject entries ->
  List.forallb wellFormed entries = true /\ List.forallb arrayFree entries = true.
Proof.
  induction 1 as [|entry entries (? & ? & ? & ? & ? & ->) _ [IHw IHa]]; simpl; [easy|].
  now rewrite IHw, IHa.
Qed.

Lemma getRequestBody_plain types route body :
  getRequestBody types route = Return body ->
  wellFormed body = true /\ arrayFree body = true.
Proof.
  unfold getRequestBody, lodash_find.
  destruct (List.find (hasType "body") (params route)) as [m|].
  - destruct (paramType types _ _ _) as [cls|e]; simpl; [|discriminate].
    now intros [= <-].
  - now intros [= <-].
Qed.

Lemma getResponses_plain route :
  wellFormed (getResponses route) = true /\ arrayFree (getResponses route) = true.
Proof. split; reflexivity. Qed.

Lemma getOperation_wellFormed types route operation :
  getOperation types route = Return operation ->
  wellFormed operation = true /\ exists o, operation = VObject o.
Proof.
  unfold getOperation.
  destruct (getPathParams types route) as [pathParams|e] eqn:Hp; cbn [bind]; [|discriminate].
  destruct (getQueryParams types route) as [queryParams|e] eqn:Hq; cbn [bind]; [|discriminate].
  destruct (getRequestBody types route) as [body|e] eqn:Hb; cbn [bind]; [|discriminate].
  intros H. apply Return_inj in H. subst operation. split; [|eauto].
  apply wellFormed_omitBy.
  cbn [wellFormed List.map fst snd List.forallb].
  apply getPathParams_objects, paramObjects_plain in Hp as [Hp _].
  apply getQueryParams_objects, paramObjects_plain in Hq as [Hq _].
  apply getRequestBody_plain in Hb as [Hb _].
  rewrite forallb_app, Hp, Hq, Hb. reflexivity.
Qed.

(** ** The merge of two operations stays within the model *)

Lemma getOperation_shaped types route o :
  getOperation types route = Return (VObject o) -> operationShaped o.
Proof.
  unfold getOperation.
  destruct (getPathParams types route) as [pathParams|e] eqn:Hp; cbn [bind]; [|discriminate].
  destruct (getQueryParams types route) as [queryParams|e] eqn:Hq; cbn [bind]; [|discriminate].
  destruct (getRequestBody types route) as [body|e] eqn:Hb; cbn [bind]; [|discriminate].
  intros H. apply Return_inj, VObject_inj in H. subst o.
  apply getPathParams_objects, paramObjects_plain in Hp as [_ Hp].
  apply getQueryParams_objects, paramObjects_plain in Hq as [_ Hq].
  apply getRequestBody_plain in Hb as [_ Hb].
  intros key v Hin. apply filter_In in Hin as [Hin _].
  simpl in Hin.
  destruct Hin as [H|[H|[H|[H|[H|[H|[]]]]]]]; injection H as <- <-; simpl; trivial.
  - exists (pathParams ++ queryParams). now rewrite forallb_app, Hp, Hq.
  - eexists. split; reflexivity.
Qed.

Lemma mergeableValue_fresh v : mergeableValue None v = true.
Proof. now destruct v. Qed.

Lemma arrayFree_getProp d key v :
  arrayFree (VObject d) = true -> getProp d key = Some v -> arrayFree v = true.
Proof.
  simpl. rewrite forallb_forall. intros H Hv. apply getProp_In in Hv.
  apply (H (key, v) Hv).
Qed.

Lemma arrayFree_mergeable srcValue :
  forall objValue, arrayFree objValue = true ->
  mergeableValue (Some objValue) srcValue = true.
Proof.
  induction srcValue as [| | |items IH|s IH] using value_ind;
    intros [| | |d|d] Hfree; try reflexivity; try discriminate.
  simpl. apply forallb_forall. intros kv Hin.
  destruct (getProp d (fst kv)) as [v|] eqn:Hv; [|apply mergeableValue_fresh].
  rewrite Forall_forall in IH. apply (IH kv Hin).
  now apply (arrayFree_getProp d (fst kv)).
Qed.

Lemma arrayFree_mergeable_items s :
  forall d, List.forallb arrayFree d = true ->
  mergeableValue (Some (VArray d)) (VArray s) = true.
Proof.
  simpl. induction s as [|x s IH]; intros d Hd; [reflexivity|].
  destruct d as [|y d]; simpl in *.
  - rewrite mergeableValue_fresh. now apply (IH []).
  - apply andb_true_iff in Hd as [Hy Hd].
    rewrite (arrayFree_mergeable x y Hy). now apply IH.
Qed.

(** The operations of two routes are mergeable: the case [baseMerge]
    leaves out of the model is never met by [getPaths] on two routes. *)
Lemma operations_mergeable types a b first second :
  getOperation types a = Return first ->
  getOperation types b = Return second ->
  mergeable first second = true.
Proof.
  intros Ha Hb.
  destruct (getOperation_wellFormed _ _ _ Ha) as [_ [o1 ->]].
  destruct (getOperation_wellFormed _ _ _ Hb) as [_ [o2 ->]].
  apply getOperation_shaped in Ha, Hb.
  unfold mergeable. simpl. apply forallb_forall. intros [key v] Hin. simpl.
  specialize (Hb key v Hin).
  destruct (getProp o1 key) as [w|] eqn:Hw; [|apply mergeableValue_fresh].
  apply getProp_In in Hw. specialize (Ha key w Hw).
  destruct ((key =? "parameters")%string || (key =? "tags")%string).
  - destruct Ha as (items1 & -> & H1), Hb as (items2 & -> & H2).
    now apply arrayFree_mergeable_items.
  - now apply arrayFree_mergeable.
Qed.

(** ** [getPaths] *)

(** C4: of two routes with distinct full paths, [getPaths] gives an object
    with the two paths as keys, each holding the operation of its own route
    under the method of that route and nothing else; with one full path and
    distinct methods, both operations stand under that path; with one full
    path and one method, the operation of the later route is merged into
    that of the earlier one property by property: a property only the
    earlier operation has is kept, a string of the later one replaces the
    earlier value, and any other value of the later one is merged into the
    earlier value of the same name. *)
Theorem getPaths_pair types (a b : IRoute) :
  typedRoute types a = true ->
  typedRoute types b = true ->
  exists first second,
    getOperation types a = Return (VObject first)
    /\ getOperation types b = Return (VObject second)
    /\ (getFullPath a <> getFullPath b ->
        getPaths types [a; b]
        = Return
            (VObject
               [(getFullPath a, VObject [(Action.type (action a), VObject first)]);
                (getFullPath b, VObject [(Action.type (action b), VObject second)])]))
    /\ (getFullPath a = getFullPath b ->
        Action.type (action a) <> Action.type (action b) ->
        getPaths types [a; b]
        = Return
            (VObject
               [(getFullPath a,
                 VObject [(Action.type (action a), VObject first);
                          (Action.type (action b), VObject second)])]))
    /\ (getFullPath a = getFullPath b ->
        Action.type (action a) = Action.type (action b) ->
        exists merged,
          getPaths types [a; b]
          = Return (VObject [(getFullPath a, VObject [(Action.type (action a), VObject merged)])])
          /\ VObject merged = baseMerge (VObject first) (VObject second)
          /\ (forall key, getProp second key = None -> getProp merged key = getProp first key)
          /\ (forall key s,
                getProp second key = Some (VString s) ->
                getProp merged key = Some (VString s))
          /\ (forall key later,
                getProp second key = Some later ->
                getProp merged key = Some (mergeValue (getProp first key) later))).
Proof.
  intros Ha Hb.
  apply getOperation_returns in Ha as [opa Ha], Hb as [opb Hb].
  destruct (getOperation_wellFormed _ _ _ Ha) as [Hwa [first ->]].
  destruct (getOperation_wellFormed _ _ _ Hb) as [Hwb [second ->]].
  exists first, second. split; [exact Ha|]. split; [exact Hb|].
  assert (getPaths types [a; b]
          = Return
              (baseMerge
                 (VObject [(getFullPath a, VObject [(Action.type (action a), VObject first)])])
                 (VObject [(getFullPath b, VObject [(Action.type (action b), VObject second)])])))
    as Hpaths.
  { rewrite getPaths_mapM. cbn [mapM]. unfold routeFragment. rewrite Ha, Hb. reflexivity. }
  pose proof (mergeValue_copy _ Hwb) as Hcopy.
  rewrite Hpaths. split; [|split].
  - intros Hpath. rewrite merge_distinct by exact Hpath.
    rewrite mergeValue_fresh_object, Hcopy. reflexivity.
  - intros <- Hmethod. rewrite merge_same, mergeValue_objects.
    rewrite merge_distinct by exact Hmethod. now rewrite Hcopy.
  - intros <- <-. rewrite merge_same, mergeValue_objects, merge_same.
    rewrite mergeValue_objects, baseMerge_objects.
    eexists. split; [reflexivity|]. split; [reflexivity|].
    assert (NoDup (keys second)) as Hnd.
    { simpl in Hwb. apply andb_true_iff in Hwb as [Hd _]. now apply distinct_NoDup. }
    repeat split; intros key; intros; rewrite (fold_mergeProp_lookup second Hnd);
      match goal with H : getProp second key = _ |- _ => rewrite H end; reflexivity.
Qed.

Lemma getPaths_pair_witness :
  typedRoute sampleTypes getUserRoute = true
  /\ typedRoute sampleTypes createUserRoute = true
  /\ exists first second,
       getOperation sampleTypes getUserRoute = Return (VObject first)
       /\ getOperation sampleTypes createUserRoute = Return (VObject second)
       /\ getPaths sampleTypes [getUserRoute; createUserRoute]
          = Return
              (VObject
                 [("/api/users/{id}", VObject [("get", VObject first)]);
                  ("/api/users", VObject [("post", VObject second)])]).
Proof.
  split; [reflexivity|]. split; [reflexivity|].
  destruct (getPaths_pair sampleTypes getUserRoute createUserRoute eq_refl eq_refl)
    as (first & second & Ha & Hb & Hdistinct & _).
  exists first, second. split; [exact Ha|]. split; [exact Hb|].
  apply Hdistinct. vm_compute. discriminate.
Defined.

(** Two routes on one path and one method: the later operation gives the
    identifier, the summary and the first parameter, and the parameters it
    does not have stay. *)
Example getPaths_same_path_and_method :
  getPaths sampleTypes [getUserRoute; findUserRoute]
  = Return
      (VObject
         [("/api/users/{id}",
           VObject
             [("get",
               VObject
                 [("operationId", VString "UsersController.findUser");
                  ("parameters",
                   VArray
                     [VObject
                        [("in", VString "path");
                         ("name", VString "id");
                         ("required", VBoolean true);
                         ("schema", VObject [("type", VString "string")])];
                      VObject
                        [("in", VString "query");
                         ("name", VString "limit");
                         ("required", VBoolean false);
                         ("schema", VObject [("type", VString "number")])];
                      VObject
                        [("in", VString "query");
                         ("name", VString "UserQuery");
                         ("required", VBoolean false);
                         ("schema",
                          VObject [("$ref", VString "#/components/schemas/UserQuery")])]]);
                  ("responses",
                   VObject
                     [("200",
                       VObject [("content", VObject [("application/json", VObject [])]);
                                ("description", VString "Successful response")])]);
                  ("summary", VString "Find user");
                  ("tags", VArray [VString "Users"])])])]).
Proof. reflexivity. Qed.

(** ** [getSpec] *)

(** C9: the document of [getSpec] has the version string ["3.0.0"], an info
    block with an empty title and the version ["1.0.0"], the merged paths
    of [getPaths] and a schema registry that is present and empty, and
    nothing else. *)
Theorem getSpec_document types (routes : list IRoute) :
  List.forallb (typedRoute types) routes = true ->
  exists paths doc,
    getPaths types routes = Return paths
    /\ getSpec types routes = Return (VObject doc)
    /\ getProp doc "openapi" = Some (VString "3.0.0")
    /\ getProp doc "info"
       = Some (VObject [("title", VString ""); ("version", VString "1.0.0")])
    /\ getProp doc "paths" = Some paths
    /\ getProp doc "components" = Some (VObject [("schemas", VObject [])])
    /\ keys doc = ["components"; "info"; "openapi"; "paths"].
Proof.
  intros H. apply getPaths_returns in H as [paths H].
  exists paths. unfold getSpec. rewrite H. simpl.
  eexists. split; [reflexivity|]. split; [reflexivity|]. repeat split.
Qed.

Lemma getSpec_document_witness :
  List.forallb (typedRoute sampleTypes) [getUserRoute; createUserRoute] = true
  /\ exists doc,
       getSpec sampleTypes [getUserRoute; createUserRoute] = Return (VObject doc)
       /\ getProp doc "openapi" = Some (VString "3.0.0")
       /\ getProp doc "components" = Some (VObject [("schemas", VObject [])]).
Proof.
  split; [reflexivity|].
  destruct (getSpec_document sampleTypes [getUserRoute; createUserRoute] eq_refl)
    as (paths & doc & _ & Hs & Ho & _ & _ & Hc & _).
  exists doc. auto.
Defined.

Example getSpec_no_routes :
  getSpec sampleTypes []
  = Return
      (VObject
         [("components", VObject [("schemas", VObject [])]);
          ("info", VObject [("title", VString ""); ("version", VString "1.0.0")]);
          ("openapi", VString "3.0.0");
          ("paths", VObject [])]).
Proof. reflexivity. Qed.

(** * Further properties of the generator *)

(** ** Normal forms of [getFullPath] *)

Lemma isWordChar_not_colon c : isWordChar c = true -> (c =? ":")%char = false.
Proof.
  destruct (Ascii.eqb_spec c ":") as [->|]; [discriminate | reflexivity].
Qed.

Lemma replace_word_prefix n rest :
  allWord n = true ->
  replaceColonParams (n ++ rest) = (n ++ replaceColonParams rest)%string.
Proof.
  induction n as [|c n IH]; simpl; [reflexivity|].
  intros H. apply andb_true_iff in H as [Hc Hn].
  simp replaceColonParams. rewrite (isWordChar_not_colon c Hc). simpl.
  now rewrite IH.
Qed.

Lemma head_renderBrace segs :
  headIs isWordChar (renderAll renderBrace segs) = startsWord segs.
Proof. destruct segs as [|[c|n] segs]; reflexivity. Qed.

Lemma replace_rendered segs :
  canonical segs = true ->
  replaceColonParams (renderAll renderBrace segs) = renderAll renderBrace segs.
Proof.
  induction segs as [|[c|n] segs IH]; intros H; [reflexivity| |];
    simpl in H; repeat (apply andb_true_iff in H as [H ?]).
  - simpl. simp replaceColonParams.
    rewrite takeWord_empty_head, negb_involutive, head_renderBrace.
    apply negb_true_iff in H. rewrite H. now rewrite IH.
  - simpl. rewrite append_assoc. simp replaceColonParams. simpl.
    rewrite replace_word_prefix by assumption.
    simp replaceColonParams. simpl. now rewrite IH.
Qed.

Lemma replace_no_colon s :
  hasChar ":" s = false -> replaceColonParams s = s.
Proof.
  induction s as [|c s IH]; simpl; [reflexivity|].
  intros H. apply orb_false_iff in H as [Hc Hs].
  simp replaceColonParams. rewrite Hc. simpl. now rewrite IH.
Qed.

(** X1: a full path is a fixed point of the rewriting of [getFullPath]:
    written again as a route string it comes back unchanged, whatever the
    route strings held. *)
Theorem getFullPath_idempotent (route : IRoute) :
  replaceColonParams (getFullPath route) = getFullPath route.
Proof.
  rewrite getFullPath_routePath.
  rewrite <- (tokenize_render (routePath route)) at 1 2.
  rewrite (replace_render _ (tokenize_canonical _)).
  apply replace_rendered, tokenize_canonical.
Qed.

(** X2: route strings without a colon are put end to end and nothing
    else: the full path is the prefix, the controller route and the action
    route as they are. *)
Theorem getFullPath_without_colon (route : IRoute) :
  hasChar ":" (routePath route) = false ->
  getFullPath route
  = (orEmpty (Options.routePrefix (options route))
     ++ Controller.route (controller route)
     ++ Action.route (action route))%string.
Proof. intros H. rewrite getFullPath_routePath. now apply replace_no_colon. Qed.

Lemma getFullPath_without_colon_witness :
  hasChar ":" (routePath createUserRoute) = false
  /\ getFullPath createUserRoute = "/api/users".
Proof.
  split; [reflexivity|].
  now rewrite (getFullPath_without_colon createUserRoute eq_refl).
Defined.

(** ** The names of path parameters *)

Lemma matchAllBraces_names s :
  Forall
    (fun m => exists n, m = ("{" ++ n ++ "}")%string /\ n <> "" /\ allWord n = true)
    (matchAllBraces s).
Proof.
  remember (String.length s) as k eqn:Hk. revert s Hk.
  induction k as [k IH] using lt_wf_ind. intros [|c rest] Hk; [constructor|].
  simp matchAllBraces. simpl in Hk.
  destruct ((c =? "{")%char && negb (isEmptyString (takeWord rest))
            && startsWith "}" (dropWord rest)) eqn:E.
  - apply andb_true_iff in E as [E _]. apply andb_true_iff in E as [_ E].
    apply negb_true_iff in E. constructor.
    + exists (takeWord rest). split; [reflexivity|].
      split; [now apply takeWord_nonempty | apply takeWord_allWord].
    + pose proof (dropWord_length rest).
      assert (String.length (tail (dropWord rest)) <= String.length (dropWord rest))
        by (destruct (dropWord rest); simpl; lia).
      apply (IH (String.length (tail (dropWord rest)))); lia || reflexivity.
  - apply (IH (String.length rest)); lia || reflexivity.
Qed.

Lemma placeholders_names path :
  Forall (fun n => n <> "" /\ allWord n = true) (placeholders path).
Proof.
  unfold placeholders. rewrite lodash_map_matchBraces.
  induction (matchAllBraces_names path) as [|m ms (n & -> & Hn) _ IH];
    cbn [List.map]; constructor; trivial.
  now rewrite slice_braces.
Qed.

(** X3: every path parameter [getPathParams] returns is in the path and
    bears a name that is not empty and holds letters, digits and
    underscores only, whatever the route strings are. *)
Theorem getPathParams_names types (route : IRoute) :
  List.forallb (typed types) (pathDescriptors route) = true ->
  exists entries,
    getPathParams types route = Return entries
    /\ Forall
         (fun entry =>
            exists name,
              get entry "name" = Some (VString name)
              /\ get entry "in" = Some (VString "path")
              /\ name <> "" /\ allWord name = true)
         entries.
Proof.
  intros H. apply getPathParams_returns in H as [entries H].
  exists entries. split; [exact H|].
  apply getPathParams_Forall2 in H.
  pose proof (placeholders_names (getFullPath route)) as Hn.
  induction H as [|name entry names entries (r & t & -> & _) _ IH]; constructor.
  - inversion Hn as [|? ? [Hne Hw] _]; subst. exists name. repeat split; trivial.
  - apply IH. now inversion Hn.
Qed.

Lemma getPathParams_names_witness :
  exists entries,
    getPathParams sampleTypes getUserRoute = Return entries
    /\ Forall
         (fun entry =>
            exists name,
              get entry "name" = Some (VString name)
              /\ get entry "in" = Some (VString "path")
              /\ name <> "" /\ allWord name = true)
         entries.
Proof. apply (getPathParams_names sampleTypes getUserRoute). reflexivity. Defined.

(** ** [getOperationId] *)

Lemma append_dot_injective (a b m1 m2 : string) :
  hasChar "." a = false -> hasChar "." b = false ->
  (a ++ "." ++ m1 = b ++ "." ++ m2)%string -> a = b /\ m1 = m2.
Proof.
  revert b. induction a as [|c a IH]; intros [|d b]; simpl; intros Ha Hb H.
  - now injection H as ->.
  - injection H as <- _. discriminate.
  - injection H as -> _. discriminate.
  - apply orb_false_iff in Ha as [_ Ha], Hb as [_ Hb].
    injection H as -> H. destruct (IH b Ha Hb H) as [-> ->]. easy.
Qed.

(** X4: the operation identifier tells the routes apart: when the names
    of the declaring classes hold no dot, two routes with one identifier
    have the same class name and the same method name. *)
Theorem getOperationId_injective (r1 r2 : IRoute) :
  hasChar "." (Class.name (Action.target (action r1))) = false ->
  hasChar "." (Class.name (Action.target (action r2))) = false ->
  getOperationId r1 = getOperationId r2 ->
  Class.name (Action.target (action r1)) = Class.name (Action.target (action r2))
  /\ Action.method (action r1) = Action.method (action r2).
Proof. unfold getOperationId. apply append_dot_injective. Qed.

Lemma getOperationId_injective_witness :
  Class.name (Action.target (action getUserRoute))
  = Class.name (Action.target (action requiredUserRoute))
  /\ Action.method (action getUserRoute) = Action.method (action requiredUserRoute).
Proof.
  apply (getOperationId_injective getUserRoute requiredUserRoute); reflexivity.
Defined.

(** A class name with a dot breaks it: the identifier does not say where
    the class name ends. *)
Example getOperationId_collision :
  getOperationId (routeOf (actionOf "get" "b.c" "") [] [])
  = getOperationId
      (routeOf
         {| Action.type := "get";
            Action.target := classNamed "UsersController.b";
            Action.method := "c";
            Action.route := "" |} [] []).
Proof. reflexivity. Qed.

(** ** [getTags] *)

Lemma endsWith_append base suffix : endsWith suffix (base ++ suffix) = true.
Proof.
  induction base as [|c base IH]; simpl.
  - destruct suffix; cbn [endsWith]; now rewrite String.eqb_refl.
  - rewrite IH. apply orb_true_r.
Qed.

Lemma length_append (a b : string) :
  String.length (a ++ b) = String.length a + String.length b.
Proof. induction a as [|c a IH]; simpl; [reflexivity | now rewrite IH]. Qed.

Lemma take_append (a b : string) : take (String.length a) (a ++ b) = a.
Proof. induction a as [|c a IH]; simpl; [now destruct b | now rewrite IH]. Qed.

Lemma stripControllerSuffix_append base :
  stripControllerSuffix (base ++ "Controller") = base.
Proof.
  unfold stripControllerSuffix. rewrite endsWith_append, length_append.
  replace (String.length base + String.length "Controller" - 10)
    with (String.length base) by (simpl; lia).
  apply take_append.
Qed.

(** X5: the one tag of a route is made from the name of the controller
    class without its ending [Controller]: a class [<Base>Controller] is
    tagged with the title case of [<Base>], whatever the base is (were it
    empty or itself ending in [Controller]). *)
Theorem getTags_strips_suffix (route : IRoute) (base : string) :
  Class.name (Controller.target (controller route)) = (base ++ "Controller")%string ->
  getTags route = [startCase base].
Proof. unfold getTags. intros ->. now rewrite stripControllerSuffix_append. Qed.

Lemma getTags_strips_suffix_witness : getTags getUserRoute = [startCase "Users"].
Proof. apply (getTags_strips_suffix getUserRoute "Users"). reflexivity. Defined.

(** ** [getRequestBody] *)

(** X6: the request body of a route comes from the first declared body
    descriptor and from no other: without one there is no body
    ([undefined]); with one, the body has the content type
    [application/json] with a reference to the schema of the recorded type,
    the name of that type as description, and is required by the rule of
    [isRequired]; and a first body descriptor without a recorded type
    raises a [TypeError]. *)
Theorem getRequestBody_first_body types (route : IRoute) :
  (noMatch (hasType "body") (params route) ->
   getRequestBody types route = Return VUndefined)
  /\ (forall m,
        firstMatch (hasType "body") (params route) m ->
        getRequestBody types route
        = match typeOf types m with
          | Return cls =>
              Return
                (VObject
                   [("content",
                     VObject
                       [("application/json",
                         VObject
                           [("schema",
                             VObject
                               [("$ref",
                                 VString ("#/components/schemas/" ++ Class.name cls))])])]);
                    ("description", VString (Class.name cls));
                    ("required", VBoolean (isRequired (Param.required m) route))])
          | Throw e => Throw TypeError
          end).
Proof.
  unfold getRequestBody, lodash_find. split.
  - intros H. apply find_noMatch in H. now rewrite H.
  - intros m H. apply find_firstMatch in H. rewrite H. unfold typeOf.
    now destruct (paramType types _ _ _) as [cls|[]].
Qed.

Example getRequestBody_createUser :
  getRequestBody sampleTypes createUserRoute
  = Return
      (VObject
         [("content",
           VObject
             [("application/json",
               VObject [("schema", VObject [("$ref", VString "#/components/schemas/User")])])]);
          ("description", VString "User");
          ("required", VBoolean false)]).
Proof. reflexivity. Qed.

(** ** The properties of an operation *)

Lemma isEmptyString_append (a b : string) c :
  isEmptyString (a ++ String c b) = false.
Proof. now destruct a. Qed.

(** X7: the operation of a route holds no empty property: the identifier,
    the responses and the tags are always there; the parameters, the
    request body and the summary are there exactly when they are not
    empty (at least one parameter, a declared body, a method name with a
    word in it); and it has no other property. *)
Theorem getOperation_properties types (route : IRoute) :
  typedRoute types route = true ->
  exists o pathParams queryParams body,
    getOperation types route = Return (VObject o)
    /\ getPathParams types route = Return pathParams
    /\ getQueryParams types route = Return queryParams
    /\ getRequestBody types route = Return body
    /\ Forall (fun kv => isEmpty (snd kv) = false) o
    /\ getProp o "operationId" = Some (VString (getOperationId route))
    /\ getProp o "responses" = Some (getResponses route)
    /\ getProp o "tags" = Some (VArray (List.map VString (getTags route)))
    /\ getProp o "parameters"
       = (if isEmpty (VArray (pathParams ++ queryParams)) then None
          else Some (VArray (pathParams ++ queryParams)))
    /\ getProp o "requestBody" = (if isEmpty body then None else Some body)
    /\ getProp o "summary"
       = (if isEmpty (VString (getSummary route)) then None
          else Some (VString (getSummary route)))
    /\ incl (keys o)
         ["operationId"; "parameters"; "requestBody"; "responses"; "summary"; "tags"].
Proof.
  unfold typedRoute. rewrite !forallb_app, !andb_true_iff. intros (Hp & Hq & Hb).
  apply getPathParams_returns in Hp as [pathParams Hp].
  apply getQueryParams_returns in Hq as [queryParams Hq].
  apply getRequestBody_returns in Hb as [body Hb].
  unfold getOperation. rewrite Hp, Hq, Hb. cbn [bind].
  eexists; exists pathParams, queryParams, body.
  split; [reflexivity|]. do 3 (split; [reflexivity|]).
  assert (isEmpty (VString (getOperationId route)) = false) as Hid
    by apply isEmptyString_append.
  assert (isEmpty (getResponses route) = false) as Hresp by reflexivity.
  assert (isEmpty (VArray (List.map VString (getTags route))) = false) as Htags
    by reflexivity.
  unfold omitBy. cbn [List.filter snd]. rewrite Hid, Hresp, Htags. cbn [negb].
  destruct (isEmpty (VArray (pathParams ++ queryParams))) eqn:Eparams,
    (isEmpty body) eqn:Ebody,
    (isEmpty (VString (getSummary route))) eqn:Esummary;
    cbn [negb];
    (split; [repeat constructor; assumption|]);
    repeat (split; [reflexivity|]);
    intros key Hin; simpl in *; tauto.
Qed.

Lemma getOperation_properties_witness :
  exists o,
    getOperation sampleTypes createUserRoute = Return (VObject o)
    /\ Forall (fun kv => isEmpty (snd kv) = false) o
    /\ getProp o "parameters" = None.
Proof.
  destruct (getOperation_properties sampleTypes createUserRoute eq_refl)
    as (o & pathParams & queryParams & body & Ho & Hp & Hq & _ & He & _ & _ & _ & Hparams & _).
  exists o. split; [exact Ho|]. split; [exact He|].
  vm_compute in Hp, Hq. injection Hp as <-. injection Hq as <-. exact Hparams.
Defined.

(** ** The number of query parameters *)

Lemma find_existsb {A} (p : A -> bool) l :
  List.existsb p l = match List.find p l with Some _ => true | None => false end.
Proof.
  induction l as [|x l IH]; simpl; [reflexivity|]. now destruct (p x).
Qed.

Lemma Forall2_length {A B} (R : A -> B -> Prop) l l' :
  Forall2 R l l' -> List.length l = List.length l'.
Proof. induction 1; simpl; congruence. Qed.

(** X8: [getQueryParams] returns one parameter for every declared query
    descriptor and one more when some queries descriptor is declared,
    however many of these there are; descriptors of any other type give
    none, and every parameter returned is in the query. *)
Theorem getQueryParams_count types (route : IRoute) :
  List.forallb (typed types) (queryDescriptors route) = true ->
  exists entries,
    getQueryParams types route = Return entries
    /\ List.length entries
       = List.length (List.filter (hasType "query") (params route))
         + (if List.existsb (hasType "queries") (params route) then 1 else 0)
    /\ Forall (fun entry => get entry "in" = Some (VString "query")) entries.
Proof.
  intros H.
  destruct (getQueryParams_entries types route H) as (singles & extra & Hr & Hs & Hx).
  exists (singles ++ extra). split; [exact Hr|]. split.
  - rewrite length_app, <- (Forall2_length _ _ _ Hs), <- (Forall2_length _ _ _ Hx).
    rewrite find_existsb. now destruct (List.find (hasType "queries") (params route)).
  - apply Forall_app. split.
    + eapply Forall2_Forall_r; [|exact Hs]. now intros m e (cls & _ & ->).
    + eapply Forall2_Forall_r; [|exact Hx]. now intros m e (cls & _ & ->).
Qed.

Lemma getQueryParams_count_witness :
  exists entries,
    getQueryParams sampleTypes getUserRoute = Return entries
    /\ List.length entries = 2.
Proof.
  destruct (getQueryParams_count sampleTypes getUserRoute eq_refl)
    as (entries & Hr & Hl & _).
  exists entries. split; [exact Hr | exact Hl].
Defined.

(** ** When the generator raises *)

Lemma forallb_false_exists {A} (p : A -> bool) l :
  List.forallb p l = false <-> exists x, In x l /\ p x = false.
Proof.
  induction l as [|y l IH]; simpl.
  - split; [discriminate | now intros (? & [] & _)].
  - destruct (p y) eqn:E; simpl.
    + rewrite IH. split; intros (x & Hx & Hp); [now eauto|].
      destruct Hx as [->|Hx]; [congruence | eauto].
    + split; [eauto | reflexivity].
Qed.

(** X9: [getSpec] raises, and then a [TypeError], exactly when some route
    declares a parameter whose type the generator reads (the first path
    descriptor named by a placeholder, a query descriptor, the first
    queries descriptor, the first body descriptor) and that has no
    recorded type. *)
Theorem getSpec_throws_iff types (routes : list IRoute) :
  getSpec types routes = Throw TypeError
  <-> exists route m,
        In route routes
        /\ In m (pathDescriptors route ++ queryDescriptors route ++ bodyDescriptors route)
        /\ typed types m = false.
Proof.
  split.
  - intros H.
    destruct (List.forallb (typedRoute types) routes) eqn:E.
    + apply getSpec_returns in E as [doc E]. congruence.
    + apply forallb_false_exists in E as (route & Hin & E).
      apply forallb_false_exists in E as (m & Hm & E). eauto.
  - intros (route & m & Hin & Hm & E). apply getSpec_throws.
    apply forallb_false_exists. exists route. split; [exact Hin|].
    apply forallb_false_exists. eauto.
Qed.

(** ** [getPaths] on any number of routes *)

Lemma setProp_same o key v : getProp o key = Some v -> setProp o key v = o.
Proof.
  induction o as [|[k w] o IH]; simpl; [discriminate|].
  destruct (String.eqb_spec k key) as [->|_]; [now intros [= ->] | intros H; now rewrite IH].
Qed.

Lemma fold_mergeProp_same s :
  forall o,
    Forall (fun kv => getProp o (fst kv) = Some (snd kv)) s ->
    Forall (fun kv => mergeValue (Some (snd kv)) (snd kv) = snd kv) s ->
    fold_left mergeProp s o = o.
Proof.
  induction s as [|[k v] s IH]; intros o Hin Hv; simpl; [reflexivity|].
  inversion Hin as [|? ? Hk Hin']; inversion Hv as [|? ? Hkv Hv']; subst. simpl in *.
  unfold mergeProp at 2. simpl. rewrite Hk, Hkv, (setProp_same _ _ _ Hk). now apply IH.
Qed.

Lemma getProp_distinct_In (o : props) key v :
  NoDup (keys o) -> In (key, v) o -> getProp o key = Some v.
Proof.
  induction o as [|[k w] o IH]; simpl; [easy|].
  inversion 1 as [|? ? Hk Hnd]; subst. intros [[= -> ->]|Hin].
  - now rewrite String.eqb_refl.
  - destruct (String.eqb_spec k key) as [->|_]; [|auto].
    exfalso. apply Hk. unfold keys. now apply (in_map fst _ (key, v)).
Qed.

(** Merged into itself, a well-formed value does not change. *)
Lemma mergeValue_same v : wellFormed v = true -> mergeValue (Some v) v = v.
Proof.
  induction v as [| | |items IH|o IH] using value_ind; intros Hwf; try reflexivity.
  - unfold mergeValue. cbn [mergeTarget assignMergeValue]. rewrite baseMerge_arrays.
    f_equal. simpl in Hwf. rewrite forallb_forall in Hwf.
    induction IH as [|x items Hx _ IHitems]; simpl; [reflexivity|].
    rewrite Hx by (apply Hwf; now left). f_equal.
    apply IHitems. intros y Hy. apply Hwf. now right.
  - unfold mergeValue. cbn [mergeTarget assignMergeValue]. rewrite baseMerge_objects.
    f_equal. simpl in Hwf. apply andb_true_iff in Hwf as [Hd Hwf].
    apply distinct_NoDup in Hd. rewrite forallb_forall in Hwf.
    apply fold_mergeProp_same; apply Forall_forall; intros [k v] Hin; simpl.
    + now apply getProp_distinct_In.
    + rewrite Forall_forall in IH. apply (IH (k, v) Hin), (Hwf (k, v) Hin).
Qed.

(** X10: a route given twice counts once: the paths of a route followed
    by itself are the paths of the route alone. *)
Theorem getPaths_same_route_twice types (a : IRoute) :
  typedRoute types a = true ->
  getPaths types [a; a] = getPaths types [a]
  /\ exists operation,
       getPaths types [a]
       = Return (VObject [(getFullPath a, VObject [(Action.type (action a), operation)])]).
Proof.
  intros Ha. apply getOperation_returns in Ha as [operation Ha].
  destruct (getOperation_wellFormed _ _ _ Ha) as [Hwf _].
  rewrite !getPaths_mapM. cbn [mapM]. unfold routeFragment. rewrite Ha. cbn [bind merge fold_left].
  split; [|eauto].
  rewrite merge_same, mergeValue_objects, merge_same, (mergeValue_same _ Hwf). reflexivity.
Qed.

Lemma getPaths_same_route_twice_witness :
  getPaths sampleTypes [getUserRoute; getUserRoute] = getPaths sampleTypes [getUserRoute].
Proof. apply (getPaths_same_route_twice sampleTypes getUserRoute). reflexivity. Defined.

Lemma merge_fresh_path acc path method operation :
  getProp acc path = None ->
  wellFormed operation = true ->
  baseMerge (VObject acc) (VObject [(path, VObject [(method, operation)])])
  = VObject (acc ++ [(path, VObject [(method, operation)])]).
Proof.
  intros Hfresh Hwf. rewrite baseMerge_objects. cbn [fold_left].
  unfold mergeProp. cbn [fst snd]. rewrite Hfresh, mergeValue_fresh_object.
  rewrite (mergeValue_copy _ Hwf). now rewrite setProp_fresh.
Qed.

Lemma fold_fragments_fresh types routes :
  forall acc operations,
    Forall2 (fun route operation => getOperation types route = Return operation)
      routes operations ->
    NoDup (keys acc ++ List.map getFullPath routes) ->
    fold_left baseMerge
      (List.map (fun ro => VObject [fragmentOf (fst ro) (snd ro)]) (List.combine routes operations))
      (VObject acc)
    = VObject (acc ++ List.map (fun ro => fragmentOf (fst ro) (snd ro))
                        (List.combine routes operations)).
Proof.
  induction routes as [|route routes IH]; intros acc operations Hops Hnd.
  - inversion Hops; subst. simpl. now rewrite app_nil_r.
  - inversion Hops as [|? operation ? operations' Hop Hops']; subst.
    cbn [List.combine List.map fold_left fst snd].
    destruct (getOperation_wellFormed _ _ _ Hop) as [Hwf _].
    change (VObject [fragmentOf route operation])
      with (VObject [(getFullPath route,
                      VObject [(Action.type (action route), operation)])]).
    rewrite merge_fresh_path; trivial.
    + rewrite IH; trivial.
      * now rewrite <- app_assoc.
      * unfold keys in *. rewrite map_app, <- app_assoc. exact Hnd.
    + apply getProp_absent. intros Hin. simpl in Hnd.
      apply NoDup_remove_2 in Hnd. apply Hnd, in_or_app. now left.
Qed.

Lemma mapM_combine {A B} (f : A -> result B) (g : A -> B -> B) l ys :
  Forall2 (fun x y => f x = Return y) l ys ->
  mapM (fun x => y <- f x ;; Return (g x y)) l
  = Return (List.map (fun xy => g (fst xy) (snd xy)) (List.combine l ys)).
Proof.
  induction 1 as [|x y l ys Hxy _ IH]; simpl; [reflexivity|].
  now rewrite Hxy, IH.
Qed.

(** X11: of any number of routes with full paths that all differ,
    [getPaths] gives an object with one property for each route: its full
    path, holding the operation of the route, unchanged, under its method
    and nothing else. *)
Theorem getPaths_distinct_paths types (routes : list IRoute) :
  List.forallb (typedRoute types) routes = true ->
  NoDup (List.map getFullPath routes) ->
  exists operations,
    Forall2 (fun route operation => getOperation types route = Return operation)
      routes operations
    /\ getPaths types routes
       = Return
           (VObject
              (List.map (fun ro => fragmentOf (fst ro) (snd ro))
                 (List.combine routes operations))).
Proof.
  intros Ht Hnd.
  assert (exists operations, mapM (getOperation types) routes = Return operations)
    as [operations Hops].
  { apply mapM_returns. rewrite forallb_forall in Ht. apply Forall_forall.
    intros route Hin. apply getOperation_returns. auto. }
  apply mapM_Forall2 in Hops. exists operations. split; [exact Hops|].
  assert (getPaths types routes
          = (fragments <-
               mapM (fun route =>
                       operation <- getOperation types route ;;
                       Return (VObject [fragmentOf route operation])) routes ;;
             Return (merge fragments))) as -> by reflexivity.
  rewrite (mapM_combine (getOperation types)
             (fun route operation => VObject [fragmentOf route operation]) _ _ Hops).
  cbn [bind]. f_equal.
  destruct Hops as [|route operation routes operations Hop Hops]; [reflexivity|].
  cbn [List.combine List.map merge fst snd].
  pose proof (fold_fragments_fresh types routes [fragmentOf route operation]
                operations Hops) as H.
  simpl in Hnd. rewrite H; [reflexivity|]. exact Hnd.
Qed.

Lemma getPaths_distinct_paths_witness :
  exists operations,
    Forall2 (fun route operation => getOperation sampleTypes route = Return operation)
      [getUserRoute; createUserRoute] operations
    /\ getPaths sampleTypes [getUserRoute; createUserRoute]
       = Return
           (VObject
              (List.map (fun ro => fragmentOf (fst ro) (snd ro))
                 (List.combine [getUserRoute; createUserRoute] operations))).
Proof.
  apply (getPaths_distinct_paths sampleTypes [getUserRoute; createUserRoute]).
  - reflexivity.
  - vm_compute. repeat constructor; simpl; intuition discriminate.
Defined.

(** ** Routes on one path and one method *)

Lemma lastRoute_snoc path method routes route :
  lastRoute path method (routes ++ [route])
  = if onPathAndMethod path method route then Some route
    else lastRoute path method routes.
Proof.
  induction routes as [|r routes IH]; simpl.
  - now destruct (onPathAndMethod path method route).
  - rewrite IH. now destruct (onPathAndMethod path method route).
Qed.

Lemma getOperation_fields types route o :
  getOperation types route = Return (VObject o) ->
  getProp o "operationId" = Some (VString (getOperationId route))
  /\ getProp o "responses" = Some (getResponses route).
Proof.
  unfold getOperation.
  destruct (getPathParams types route) as [pathParams|e]; cbn [bind]; [|discriminate].
  destruct (getQueryParams types route) as [queryParams|e]; cbn [bind]; [|discriminate].
  destruct (getRequestBody types route) as [body|e]; cbn [bind]; [|discriminate].
  intros H. apply Return_inj, VObject_inj in H. subst o.
  assert (isEmpty (VString (getOperationId route)) = false) as Hid
    by apply isEmptyString_append.
  assert (isEmpty (getResponses route) = false) as Hresp by reflexivity.
  unfold omitBy. cbn [List.filter snd]. rewrite Hid, Hresp. cbn [negb].
  destruct (isEmpty (VArray (pathParams ++ queryParams))), (isEmpty body); split; reflexivity.
Qed.

Lemma mergeValue_operation objValue o :
  NoDup (keys o) ->
  objValue = None \/ (exists earlier, objValue = Some (VObject earlier)) ->
  exists merged,
    mergeValue objValue (VObject o) = VObject merged
    /\ forall key s,
         getProp o key = Some (VString s) -> getProp merged key = Some (VString s).
Proof.
  intros Hnd [->|[earlier ->]].
  - exists (fold_left mergeProp o []). split; [reflexivity|].
    intros key s H. now rewrite (fold_mergeProp_lookup o Hnd), H.
  - exists (fold_left mergeProp o earlier). split; [reflexivity|].
    intros key s H. now rewrite (fold_mergeProp_lookup o Hnd), H.
Qed.

Lemma merge_fragment_step types acc done route o :
  holdsObjects acc ->
  lastRouteWins (VObject acc) done ->
  getOperation types route = Return (VObject o) ->
  exists acc',
    baseMerge (VObject acc) (VObject [fragmentOf route (VObject o)]) = VObject acc'
    /\ holdsObjects acc'
    /\ lastRouteWins (VObject acc') (done ++ [route]).
Proof.
  intros Hobj Hinv Hop.
  destruct (getOperation_wellFormed _ _ _ Hop) as [Hwf _].
  destruct (getOperation_fields _ _ _ Hop) as [Hid _].
  assert (NoDup (keys o)) as Hnd.
  { simpl in Hwf. apply andb_true_iff in Hwf as [Hd _]. now apply distinct_NoDup. }
  set (path0 := getFullPath route). set (method0 := Action.type (action route)).
  set (methods := match getProp acc path0 with Some (VObject ms) => ms | _ => [] end).
  assert (forall method, operationAt (VObject acc) path0 method = getProp methods method)
    as Hat.
  { intros method. unfold operationAt, methods. simpl.
    destruct (getProp acc path0) as [v|] eqn:E; [|reflexivity].
    destruct (Hobj _ _ E) as [ms ->]. reflexivity. }
  destruct (mergeValue_operation (getProp methods method0) o Hnd) as (merged & Hm & Hlater).
  { specialize (Hinv path0 method0). rewrite Hat in Hinv.
    destruct (lastRoute path0 method0 done); [right | now left].
    destruct Hinv as (earlier & -> & _). eauto. }
  exists (setProp acc path0 (VObject (setProp methods method0 (VObject merged)))).
  split; [|split].
  - rewrite baseMerge_objects. cbn [fold_left]. unfold mergeProp, fragmentOf.
    cbn [fst snd]. fold path0 method0. f_equal. f_equal. rewrite <- Hm.
    unfold methods. destruct (getProp acc path0) as [v|] eqn:E; [|reflexivity].
    destruct (Hobj _ _ E) as [ms ->]. reflexivity.
  - intros key v. destruct (String.eqb_spec path0 key) as [<-|Hne].
    + rewrite getProp_setProp_same. intros [= <-]. eauto.
    + rewrite getProp_setProp_other by exact Hne. apply Hobj.
  - intros path method. rewrite lastRoute_snoc. unfold onPathAndMethod.
    fold path0 method0. unfold operationAt. cbn [get].
    destruct (String.eqb_spec path0 path) as [<-|Hpath]; cbn [andb].
    + rewrite getProp_setProp_same.
      destruct (String.eqb_spec method0 method) as [<-|Hmethod].
      * rewrite getProp_setProp_same. exists merged. split; [reflexivity|].
        now apply Hlater.
      * rewrite getProp_setProp_other by exact Hmethod. rewrite <- Hat. apply Hinv.
    + rewrite getProp_setProp_other by exact Hpath. apply Hinv.
Qed.

Lemma fold_fragments_invariant types routes :
  forall operations acc done,
    Forall2 (fun route operation => getOperation types route = Return operation)
      routes operations ->
    holdsObjects acc ->
    lastRouteWins (VObject acc) done ->
    exists acc',
      fold_left baseMerge
        (List.map (fun ro => VObject [fragmentOf (fst ro) (snd ro)])
           (List.combine routes operations))
        (VObject acc)
      = VObject acc'
      /\ holdsObjects acc'
      /\ lastRouteWins (VObject acc') (done ++ routes).
Proof.
  induction routes as [|route routes IH]; intros operations acc done Hops Hobj Hinv.
  - inversion Hops; subst. exists acc. now rewrite app_nil_r.
  - inversion Hops as [|? operation ? operations' Hop Hops']; subst.
    destruct (getOperation_wellFormed _ _ _ Hop) as [_ [o ->]].
    destruct (merge_fragment_step types acc done route o Hobj Hinv Hop)
      as (acc1 & Hstep & Hobj1 & Hinv1).
    destruct (IH operations' acc1 (done ++ [route]) Hops' Hobj1 Hinv1)
      as (acc' & Hfold & Hobj' & Hinv').
    exists acc'. cbn [List.combine List.map fold_left fst snd].
    rewrite Hstep, Hfold, <- app_assoc in *. auto.
Qed.

Lemma merge_from_empty fragments :
  Forall (fun f => wellFormed f = true /\ exists o, f = VObject o) fragments ->
  merge fragments = fold_left baseMerge fragments (VObject []).
Proof.
  intros [|f rest [Hwf [o ->]] _]; [reflexivity|].
  cbn [merge fold_left]. f_equal.
  change (baseMerge (VObject []) (VObject o)) with (mergeValue None (VObject o)).
  now rewrite mergeValue_copy.
Qed.

Lemma getPaths_invariant types routes :
  List.forallb (typedRoute types) routes = true ->
  exists paths,
    getPaths types routes = Return (VObject paths)
    /\ holdsObjects paths
    /\ lastRouteWins (VObject paths) routes.
Proof.
  intros Ht.
  assert (exists operations, mapM (getOperation types) routes = Return operations)
    as [operations Hops].
  { apply mapM_returns. rewrite forallb_forall in Ht. apply Forall_forall.
    intros route Hin. apply getOperation_returns. auto. }
  apply mapM_Forall2 in Hops.
  assert (getPaths types routes
          = (fragments <-
               mapM (fun route =>
                       operation <- getOperation types route ;;
                       Return (VObject [fragmentOf route operation])) routes ;;
             Return (merge fragments))) as -> by reflexivity.
  rewrite (mapM_combine (getOperation types)
             (fun route operation => VObject [fragmentOf route operation]) _ _ Hops).
  cbn [bind]. rewrite merge_from_empty.
  - destruct (fold_fragments_invariant types routes operations [] [] Hops)
      as (paths & Hfold & Hobj & Hinv).
    + intros key v. discriminate.
    + intros path method. reflexivity.
    + exists paths. now rewrite Hfold.
  - clear Ht. induction Hops as [|route operation routes operations Hop _ IH];
      cbn [List.combine List.map]; constructor; trivial.
    destruct (getOperation_wellFormed _ _ _ Hop) as [Hwf _]. cbn [fst snd].
    split; [|unfold fragmentOf; eauto].
    unfold fragmentOf. simpl. now rewrite Hwf.
Qed.

Lemma lastRoute_none path method routes :
  lastRoute path method routes = None
  <-> Forall (fun route => onPathAndMethod path method route = false) routes.
Proof.
  induction routes as [|route routes IH]; simpl.
  - split; [constructor | reflexivity].
  - destruct (lastRoute path method routes) as [later|].
    + split; [discriminate|]. inversion 1; subst.
      assert (Some later = None) by now apply IH. discriminate.
    + destruct (onPathAndMethod path method route) eqn:E.
      * split; [discriminate | inversion 1; congruence].
      * split; [constructor; [exact E | now apply IH] | reflexivity].
Qed.

Lemma onPathAndMethod_spec path method route :
  onPathAndMethod path method route = true
  <-> getFullPath route = path /\ Action.type (action route) = method.
Proof.
  unfold onPathAndMethod. now rewrite andb_true_iff, !String.eqb_eq.
Qed.

(** X12: whatever the routes, the paths object holds an operation under a
    path and a method exactly when some route has that full path and that
    method: no route is left out and no entry is made up. *)
Theorem getPaths_entries types (routes : list IRoute) :
  List.forallb (typedRoute types) routes = true ->
  exists paths,
    getPaths types routes = Return paths
    /\ forall path method,
         operationAt paths path method <> None
         <-> exists route,
               In route routes
               /\ getFullPath route = path
               /\ Action.type (action route) = method.
Proof.
  intros Ht. destruct (getPaths_invariant types routes Ht) as (paths & Hp & _ & Hinv).
  exists (VObject paths). split; [exact Hp|]. intros path method.
  specialize (Hinv path method).
  destruct (lastRoute path method routes) as [route|] eqn:E.
  - destruct Hinv as (o & -> & _). split; [intros _ | discriminate].
    destruct (List.Forall_Exists_dec
                (fun route => onPathAndMethod path method route = false)
                (fun route => bool_dec (onPathAndMethod path method route) false) routes)
      as [Hall|Hex].
    + apply lastRoute_none in Hall. congruence.
    + apply Exists_exists in Hex as (r & Hin & Hr).
      apply not_false_is_true, onPathAndMethod_spec in Hr. exists r. tauto.
  - rewrite Hinv. split; [congruence|]. intros (r & Hin & Hr).
    apply lastRoute_none in E. rewrite Forall_forall in E. specialize (E r Hin).
    apply (proj2 (onPathAndMethod_spec path method r)) in Hr. congruence.
Qed.

Lemma getPaths_entries_witness :
  exists paths,
    getPaths sampleTypes [getUserRoute; createUserRoute; findUserRoute] = Return paths
    /\ operationAt paths "/api/users" "post" <> None
    /\ operationAt paths "/api/users" "get" = None.
Proof.
  destruct (getPaths_entries sampleTypes [getUserRoute; createUserRoute; findUserRoute]
              eq_refl) as (paths & Hp & H).
  exists paths. split; [exact Hp|]. split.
  - apply H. exists createUserRoute. simpl. tauto.
  - vm_compute in Hp. injection Hp as <-. reflexivity.
Defined.

(** X13: when several routes are on one full path and one method, the
    operation the paths object holds for them bears the identifier of the
    last of these routes, whatever stands between them in the list. *)
Theorem getPaths_last_route_wins types (routes : list IRoute) :
  List.forallb (typedRoute types) routes = true ->
  exists paths,
    getPaths types routes = Return paths
    /\ forall path method route,
         lastRoute path method routes = Some route ->
         exists o,
           operationAt paths path method = Some (VObject o)
           /\ getProp o "operationId" = Some (VString (getOperationId route)).
Proof.
  intros Ht. destruct (getPaths_invariant types routes Ht) as (paths & Hp & _ & Hinv).
  exists (VObject paths). split; [exact Hp|]. intros path method route E.
  specialize (Hinv path method). now rewrite E in Hinv.
Qed.

Lemma getPaths_last_route_wins_witness :
  exists paths o,
    getPaths sampleTypes [getUserRoute; createUserRoute; findUserRoute] = Return paths
    /\ operationAt paths "/api/users/{id}" "get" = Some (VObject o)
    /\ getProp o "operationId" = Some (VString "UsersController.findUser").
Proof.
  destruct (getPaths_last_route_wins sampleTypes
              [getUserRoute; createUserRoute; findUserRoute] eq_refl)
    as (paths & Hp & H).
  destruct (H "/api/users/{id}" "get" findUserRoute eq_refl) as (o & Ho & Hid).
  exists paths, o. auto.
Defined.

(** X14: the responses of routes on one full path and one method add up:
    when two such routes answer with different status codes, the merged
    operation has both response entries, each as its route made it, and
    no other. *)
Theorem getPaths_responses_accumulate types (a b : IRoute) sa ra sb rb :
  typedRoute types a = true ->
  typedRoute types b = true ->
  getFullPath a = getFullPath b ->
  Action.type (action a) = Action.type (action b) ->
  getResponses a = VObject [(sa, ra)] ->
  getResponses b = VObject [(sb, rb)] ->
  sa <> sb ->
  exists paths o responses,
    getPaths types [a; b] = Return paths
    /\ operationAt paths (getFullPath a) (Action.type (action a)) = Some (VObject o)
    /\ getProp o "responses" = Some (VObject responses)
    /\ getProp responses sa = Some ra
    /\ getProp responses sb = Some rb
    /\ List.length responses = 2.
Proof.
  intros Ha Hb Hpath Hmethod Hra Hrb Hne.
  apply getOperation_returns in Ha as [opa Ha], Hb as [opb Hb].
  destruct (getOperation_wellFormed _ _ _ Ha) as [_ [first ->]].
  destruct (getOperation_wellFormed _ _ _ Hb) as [Hwb [second ->]].
  destruct (getOperation_fields _ _ _ Ha) as [_ Hfa].
  destruct (getOperation_fields _ _ _ Hb) as [_ Hfb].
  assert (NoDup (keys second)) as Hnd.
  { simpl in Hwb. apply andb_true_iff in Hwb as [Hd _]. now apply distinct_NoDup. }
  assert (wellFormed rb = true) as Hwrb.
  { pose proof (getResponses_plain b) as [Hw _]. rewrite Hrb in Hw. simpl in Hw.
    now rewrite andb_true_r in Hw. }
  exists (VObject [(getFullPath a,
                    VObject [(Action.type (action a),
                              VObject (fold_left mergeProp second first))])]),
         (fold_left mergeProp second first), [(sa, ra); (sb, rb)].
  split; [|split; [|split]].
  - rewrite getPaths_mapM. cbn [mapM]. unfold routeFragment. rewrite Ha, Hb.
    cbn [bind merge fold_left]. rewrite <- Hpath, <- Hmethod.
    now rewrite merge_same, mergeValue_objects, merge_same, mergeValue_objects,
      baseMerge_objects.
  - unfold operationAt. simpl. rewrite String.eqb_refl. simpl.
    now rewrite String.eqb_refl.
  - rewrite (fold_mergeProp_lookup second Hnd), Hfb, Hfa, Hra, Hrb.
    rewrite mergeValue_objects, (merge_distinct sa sb ra rb Hne).
    now rewrite (mergeValue_copy rb Hwrb).
  - simpl. rewrite !String.eqb_refl.
    destruct (String.eqb_spec sa sb); [contradiction | auto].
Qed.

Lemma getPaths_responses_accumulate_witness :
  exists paths o responses,
    getPaths sampleTypes [getUserRoute; createdUserRoute] = Return paths
    /\ operationAt paths "/api/users/{id}" "get" = Some (VObject o)
    /\ getProp o "responses" = Some (VObject responses)
    /\ getProp responses "200" <> None
    /\ getProp responses "201" <> None.
Proof.
  destruct (getPaths_responses_accumulate sampleTypes getUserRoute createdUserRoute
              _ _ _ _ eq_refl eq_refl eq_refl eq_refl eq_refl eq_refl)
    as (paths & o & responses & Hp & Ho & Hr & Ha & Hb & _).
  - discriminate.
  - exists paths, o, responses. do 3 (split; [assumption|]).
    split; [change (getProp responses "200" <> None); now rewrite Ha
           | change (getProp responses "201") with
               (getProp responses
                  (toString (ResponseHandler.Number 201))) ].
    simpl in Hb. simpl. now rewrite Hb.
Defined.
